(** * Verification model of tabox, a sandbox for untrusted executables.

    Shallow embedding of the parts of the Rust sources that the
    properties below are about:
    - [src/result.rs]            : [ExitStatus], [ResourceUsage],
                                   [SandboxExecutionResult], [signal_name];
    - [src/util.rs]              : [set_resource_limit] (hard-limit clamp),
                                   [wait], [start_wall_time_watcher], [strsignal];
    - [src/linux/mod.rs]         : the supervisor [watcher], the [child] setup
                                   sequence and its helpers;
    - [src/macos/mod.rs]         : the degraded backend's [wait];
    - [src/linux/seccomp_filter.rs] : [SeccompFilter::filter];
    - [src/syscall_filter.rs]    : [SyscallFilter::build];
    - [src/bin/tabox.rs]         : the command line front-end [main].

    System calls are modelled as effects appended to a trace, in the order
    the code issues them; the kernel is modelled only where a property
    depends on what it answers. *)

From Stdlib Require Import ZArith Ascii String List Bool Lia SpecFloat DecimalString.
Import ListNotations.
Open Scope string_scope.
Open Scope Z_scope.

(* ------------------------------------------------------------------ *)
(** ** Result model ([src/result.rs]) *)

(** [ExitStatus]: [ExitCode(i32) | Signal(i32) | Killed]; an [i32] is
    kept as a [Z] in the signed 32-bit range. *)
Inductive ExitStatus :=
| ExitCode (code : Z)
| Signal (signum : Z)
| Killed.

(** A Rust [f64] is an IEEE-754 binary64 value: Stdlib's [spec_float]
    (zero, infinity, NaN or finite). *)
Definition f64 := spec_float.

Record ResourceUsage := {
  memory_usage : Z;     (* u64 *)
  user_cpu_time : f64;
  system_cpu_time : f64;
  wall_time_usage : f64
}.

Record SandboxExecutionResult := {
  status : ExitStatus;
  resource_usage : ResourceUsage
}.

(* ------------------------------------------------------------------ *)
(** ** Wait statuses (glibc's [<bits/waitstatus.h>]) *)

(** [(signed char) x] for [0 <= x < 256]. *)
Definition signed_char (x : Z) : Z := if x <? 128 then x else x - 256.

Definition WIFEXITED (status : Z) : bool := Z.land status 127 =? 0.
Definition WEXITSTATUS (status : Z) : Z := Z.shiftr (Z.land status 65280) 8.
Definition WTERMSIG (status : Z) : Z := Z.land status 127.
Definition WIFSIGNALED (status : Z) : bool :=
  0 <? Z.shiftr (signed_char (Z.land status 127 + 1)) 1.

(** The status translation of the Linux supervisor ([watcher] in
    [src/linux/mod.rs], after [wait4]):
<<
    status: if killed.load(Ordering::SeqCst) { ExitStatus::Killed }
            else if WIFEXITED(status) { ExitStatus::ExitCode(WEXITSTATUS(status)) }
            else { ExitStatus::Signal(WTERMSIG(status)) },
>> *)
Definition linux_exit_status (killed : bool) (status : Z) : ExitStatus :=
  if killed then Killed
  else if WIFEXITED status then ExitCode (WEXITSTATUS status)
  else Signal (WTERMSIG status).

(** The errors of the supervisor and panics are kept apart from statuses. *)
Inductive outcome (A : Type) :=
| Ok (a : A)
| Err (msg : string)
| Panic (msg : string).
Arguments Ok {A}.
Arguments Err {A}.
Arguments Panic {A}.

(** [std::process::ExitStatus::code] and [::signal] on Unix. *)
Definition std_code (status : Z) : option Z :=
  if WIFEXITED status then Some (WEXITSTATUS status) else None.
Definition std_signal (status : Z) : option Z :=
  if WIFSIGNALED status then Some (WTERMSIG status) else None.

(** The status translation of the degraded backend ([wait] in
    [src/macos/mod.rs]); the last branch is [unreachable!()]. *)
Definition macos_exit_status (killed : bool) (status : Z) : outcome ExitStatus :=
  if killed then Ok Killed
  else match std_code status with
       | Some c => Ok (ExitCode c)
       | None => match std_signal status with
                 | Some s => Ok (Signal s)
                 | None => Panic "internal error: entered unreachable code"
                 end
       end.

(** The status translation of [util::wait] (no [killed] flag there). *)
Definition util_wait_status (status : Z) : outcome ExitStatus :=
  if WIFEXITED status then Ok (ExitCode (WEXITSTATUS status))
  else if WIFSIGNALED status then Ok (Signal (WTERMSIG status))
  else Err "Child terminated with unknown status".

(** The translation as the specification words it (step 13 of the
    supervisor): killed flag first, then normal exit, then signal,
    anything else a supervisor error. *)
Definition spec_exit_status (killed : bool) (status : Z) : outcome ExitStatus :=
  if killed then Ok Killed
  else if WIFEXITED status then Ok (ExitCode (WEXITSTATUS status))
  else if WIFSIGNALED status then Ok (Signal (WTERMSIG status))
  else Err "unknown status".

(* ------------------------------------------------------------------ *)
(** ** Syscall filter configuration ([src/syscall_filter.rs]) *)

Inductive SyscallFilterAction :=
| Allow
| Kill
| Errno (errno : Z).   (* u32 *)

Record SyscallFilter := {
  default_action : SyscallFilterAction;
  rules : list (string * SyscallFilterAction)
}.

(** [impl Default for SyscallFilter]. *)
Definition SyscallFilter_default : SyscallFilter :=
  {| default_action := Kill; rules := [] |}.

(** [SyscallFilter::default_action] and [SyscallFilter::add_rule]
    (a [Vec::push]). *)
Definition set_default_action (action : SyscallFilterAction) (f : SyscallFilter)
  : SyscallFilter :=
  {| default_action := action; rules := f.(rules) |}.
Definition add_rule (syscall : string) (action : SyscallFilterAction)
  (f : SyscallFilter) : SyscallFilter :=
  {| default_action := f.(default_action); rules := f.(rules) ++ [(syscall, action)] |}.

(** [SyscallFilter::build(multiprocess, chmod)]. *)
Definition SyscallFilter_build (multiprocess chmod : bool) : SyscallFilter :=
  let filter := set_default_action Allow SyscallFilter_default in
  let filter := if negb multiprocess
                then add_rule "clone" Kill (add_rule "vfork" Kill (add_rule "fork" Kill filter))
                else filter in
  if negb chmod
  then add_rule "fchmodat" Kill (add_rule "fchmod" Kill (add_rule "chmod" Kill filter))
  else filter.

(** libseccomp's action encodings ([seccomp.h]). *)
Definition SCMP_ACT_KILL : Z := 0.
Definition SCMP_ACT_ALLOW : Z := 2147418112.  (* 0x7fff0000 *)
Definition SCMP_ACT_ERRNO (x : Z) : Z := Z.lor 327680 (Z.land x 65535).  (* 0x00050000 *)

(** [SyscallFilterAction::to_seccomp_param]. *)
Definition to_seccomp_param (a : SyscallFilterAction) : Z :=
  match a with
  | Allow => SCMP_ACT_ALLOW
  | Kill => SCMP_ACT_KILL
  | Errno errno => SCMP_ACT_ERRNO errno
  end.

(* ------------------------------------------------------------------ *)
(** ** Configuration ([src/configuration.rs]) *)

(** Paths ([PathBuf]) and OS strings are kept as strings. *)
Record DirectoryMount := {
  target : string;
  source : string;
  writable : bool
}.

Record SandboxConfiguration := {
  time_limit : option Z;
  memory_limit : option Z;
  stack_limit : option Z;
  executable : string;
  args : list string;
  env : list (string * string);
  mount_paths : list DirectoryMount;
  working_directory : string;
  stdin : option string;
  stdout : option string;
  stderr : option string;
  syscall_filter : option SyscallFilter;
  mount_tmpfs : bool;
  wall_time_limit : option Z;
  cpu_core : option Z;
  uid : Z;
  gid : Z;
  mount_proc : bool
}.

(** [impl Default for SandboxConfiguration]. *)
Definition SandboxConfiguration_default : SandboxConfiguration := {|
  time_limit := None; memory_limit := None; stack_limit := None;
  executable := "/bin/sh"; args := []; env := []; mount_paths := [];
  working_directory := "/"; stdin := None; stdout := None; stderr := None;
  syscall_filter := None; mount_tmpfs := false; wall_time_limit := None;
  cpu_core := None; uid := 0; gid := 0; mount_proc := false |}.

(* ------------------------------------------------------------------ *)
(** ** Kernel state and the effect trace *)

(** Linux (x86_64, glibc) constants used by the code. *)
Definition RLIMIT_CPU : Z := 0.
Definition RLIMIT_STACK : Z := 3.
Definition RLIMIT_CORE : Z := 4.
Definition RLIMIT_AS : Z := 9.
Definition RLIM_INFINITY : Z := 18446744073709551615.  (* u64::MAX *)
Definition SIGKILL : Z := 9.
Definition PR_SET_PDEATHSIG : Z := 1.
Definition MS_RDONLY : Z := 1.
Definition MS_REMOUNT : Z := 32.
Definition MS_BIND : Z := 4096.
Definition MS_REC : Z := 16384.
(** [S_IRUSR | S_IWUSR | S_IRGRP | S_IWGRP | S_IROTH | S_IWOTH] = 0o666. *)
Definition DEV_MODE : Z := 438.

(** The observable effects of the code, in issue order. *)
Inductive effect :=
| WriteFile (path contents : string)
| Prctl (option_ arg : Z)
| CreateDirAll (path : string)
| Mount (source target fstype : string) (flags : Z) (data : string)
| Mknod (path : string) (mode major minor : Z)
| Getrlimit (resource : Z)
| Setrlimit (resource cur max : Z)
| SeccompInit (default_param : Z)
| SeccompRuleAdd (param : Z) (syscall : string)
| SeccompLoad
| OpenRead (path : string)
| Create (path : string)
| Dup2 (file : string) (fd : Z)
| SchedSetaffinity (core : Z)
| Chroot (path : string)
| Chdir (path : string)
| Execve (path : string) (argv envp : list string)
| Sleep (secs : Z)
| SendSignal (pid signum : Z)
| StoreKilled (value : bool).

(** The kernel state the code reads back: the rlimit table
    (soft, hard) per resource, and the trace of effects so far. *)
Record kstate := {
  rlimits : Z -> Z * Z;
  trace : list effect
}.

(** A state and error monad over [kstate]: the code runs until it returns,
    fails with an error ([bail!]) or panics ([unwrap], [assert!],
    [check_syscall!]). *)
Definition M (A : Type) := kstate -> outcome A * kstate.

Definition ret {A} (a : A) : M A := fun s => (Ok a, s).
Definition bind {A B} (m : M A) (k : A -> M B) : M B :=
  fun s => match m s with
           | (Ok a, s') => k a s'
           | (Err e, s') => (Err e, s')
           | (Panic e, s') => (Panic e, s')
           end.
Definition panic {A} (msg : string) : M A := fun s => (Panic msg, s).
Definition fail {A} (msg : string) : M A := fun s => (Err msg, s).

Notation "x <- m ;; k" := (bind m (fun x => k))
  (at level 61, m at next level, right associativity).
Notation "m ;; k" := (bind m (fun _ => k)) (at level 61, right associativity).

Fixpoint mapM_ {A} (f : A -> M unit) (l : list A) : M unit :=
  match l with
  | [] => ret tt
  | x :: l' => f x ;; mapM_ f l'
  end.

(** Issue an effect the model lets succeed (returns 0). The calls whose
    failure the properties below consider go through [sys] instead, where
    the kernel's answer is a parameter. *)
Definition emit (e : effect) : M Z :=
  fun s => (Ok 0, {| rlimits := s.(rlimits); trace := s.(trace) ++ [e] |}).

(** [getrlimit(2)]. *)
Definition sys_getrlimit (res : Z) : M (Z * Z) :=
  fun s => (Ok (s.(rlimits) res),
            {| rlimits := s.(rlimits); trace := s.(trace) ++ [Getrlimit res] |}).

(** [setrlimit(2)] for a process without [CAP_SYS_RESOURCE] in the initial
    user namespace (the sandbox is meant for unprivileged users: the child
    is root only inside its own user namespace): the soft limit may not
    exceed the hard limit ([EINVAL]) and the hard limit may not be raised
    ([EPERM]); both return -1. *)
Definition sys_setrlimit (res cur max : Z) : M Z :=
  fun s =>
    let s' := {| rlimits := s.(rlimits); trace := s.(trace) ++ [Setrlimit res cur max] |} in
    if (cur <=? max) && (max <=? snd (s.(rlimits) res))
    then (Ok 0, {| rlimits := fun r => if r =? res then (cur, max) else s.(rlimits) r;
                   trace := s'.(trace) |})
    else (Ok (-1), s').

(** [check_syscall!]: panic on a negative result. *)
Definition check_syscall (name : string) (m : M Z) : M Z :=
  r <- m ;; if r <? 0 then panic (name ++ " failed") else ret r.

(** The kernel's answers: the return value of a system call, given the
    effects issued before it (a negative value is a failure). *)
Definition kernel_answers := list effect -> effect -> Z.

(** Issue a system call whose result the code inspects; [kernel]
    answers it. *)
Definition sys (kernel : kernel_answers) (e : effect) : M Z :=
  fun s => (Ok (kernel s.(trace) e), {| rlimits := s.(rlimits); trace := s.(trace) ++ [e] |}).

(** A kernel that accepts every call. *)
Definition kernel_accepts : kernel_answers := fun _ _ => 0.

Definition accepts_all (kernel : kernel_answers) : Prop := forall h e, 0 <= kernel h e.

(** [.unwrap()] on the [io::Result] of a call: panic on a failure. *)
Definition unwrap_io (m : M Z) : M unit :=
  r <- m ;; if r <? 0 then panic "called `Result::unwrap()` on an `Err` value" else ret tt.

(** [format!("{}", n)] for a non-negative integer. *)
Definition dec (n : Z) : string := NilZero.string_of_int (Z.to_int n).

(* ------------------------------------------------------------------ *)
(** ** Paths *)

Definition starts_with_slash (p : string) : bool :=
  match p with String "/"%char _ => true | _ => false end.

Definition ends_with_slash (p : string) : bool :=
  match String.length p with
  | O => false
  | S n => String.eqb (substring n 1 p) "/"
  end.

(** [Path::join]: an absolute right-hand side replaces the base. *)
Definition path_join (base p : string) : string :=
  if starts_with_slash p then p
  else if ends_with_slash base then base ++ p
  else base ++ "/" ++ p.

(** [Path::strip_prefix("/")]. *)
Definition strip_root (p : string) : option string :=
  match p with String "/"%char rest => Some rest | _ => None end.

(* ------------------------------------------------------------------ *)
(** ** Child setup of the Linux backend ([src/linux/mod.rs]) *)

(** The local [mount] wrapper: [create_dir_all(target).unwrap()], then
    [check_syscall!(libc::mount(...))]. *)
Definition mount (kernel : kernel_answers) (source target fstype : string) (options : Z)
  (data : string) : M unit :=
  unwrap_io (sys kernel (CreateDirAll target)) ;;
  check_syscall "libc::mount" (sys kernel (Mount source target fstype options data)) ;;
  ret tt.

(** [make_dev]. *)
Definition make_dev (kernel : kernel_answers) (path : string) (major minor : Z) : M unit :=
  check_syscall "mknod" (sys kernel (Mknod path DEV_MODE major minor)) ;; ret tt.

(** [mount_dir]. *)
Definition mount_dir (kernel : kernel_answers) (dir : DirectoryMount) (sandbox_dir : string)
  : M unit :=
  if String.eqb dir.(target) "/"
  then panic "assertion `left != right` failed"
  else match strip_root dir.(target) with
       | None => panic "called `Result::unwrap()` on an `Err` value"
       | Some rel =>
           let target := path_join sandbox_dir rel in
           mount kernel dir.(source) target "" (Z.lor MS_BIND MS_REC) "" ;;
           if negb dir.(writable)
           then mount kernel "" target "" (Z.lor (Z.lor MS_REMOUNT MS_RDONLY) MS_BIND) ""
           else ret tt
       end.

(** [setup_filesystem]. *)
Definition setup_filesystem (kernel : kernel_answers) (config : SandboxConfiguration)
  (sandbox_path : string) : M unit :=
  mount kernel "tmpfs" sandbox_path "tmpfs" 0 "size=256M" ;;
  let dev := path_join sandbox_path "dev" in
  unwrap_io (sys kernel (CreateDirAll dev)) ;;
  make_dev kernel (path_join dev "null") 1 3 ;;
  make_dev kernel (path_join dev "zero") 1 5 ;;
  make_dev kernel (path_join dev "random") 1 8 ;;
  make_dev kernel (path_join dev "urandom") 1 9 ;;
  (if config.(mount_tmpfs)
   then mount kernel "tmpfs" (path_join sandbox_path "tmp") "tmpfs" 0 "size=256M" ;;
        mount kernel "tmpfs" (path_join sandbox_path "dev/shm") "tmpfs" 0 "size=256M"
   else ret tt) ;;
  mapM_ (fun dir => mount_dir kernel dir sandbox_path) config.(mount_paths) ;;
  mount kernel "tmpfs" sandbox_path "tmpfs" (Z.lor MS_REMOUNT MS_RDONLY) "".

(** [set_resource_limit] of [src/linux/mod.rs]: soft and hard limit both
    set to [limit], without reading the current limit. *)
Definition linux_set_resource_limit (resource limit : Z) : M Z :=
  sys_setrlimit resource limit limit.

(** [setup_resource_limits] of [src/linux/mod.rs]. *)
Definition linux_setup_resource_limits (config : SandboxConfiguration) : M unit :=
  (match config.(memory_limit) with
   | Some memory_limit =>
       check_syscall "set_resource_limit(RLIMIT_AS, memory_limit)"
         (linux_set_resource_limit RLIMIT_AS memory_limit) ;; ret tt
   | None => ret tt
   end) ;;
  (match config.(time_limit) with
   | Some time_limit =>
       check_syscall "set_resource_limit(RLIMIT_CPU, time_limit)"
         (linux_set_resource_limit RLIMIT_CPU time_limit) ;; ret tt
   | None => ret tt
   end) ;;
  check_syscall "set_resource_limit(RLIMIT_CORE, 0)"
    (linux_set_resource_limit RLIMIT_CORE 0) ;;
  ret tt.

(** [setup_syscall_filter]: [SeccompFilter::new], one [filter] call per
    rule (each one a [seccomp_rule_add]), then [load]. The results of these
    calls are not inspected at this call site. *)
Definition setup_syscall_filter (config : SandboxConfiguration) : M unit :=
  match config.(syscall_filter) with
  | Some f =>
      emit (SeccompInit (to_seccomp_param f.(default_action))) ;;
      mapM_ (fun '(syscall, action) =>
               emit (SeccompRuleAdd (to_seccomp_param action) syscall) ;; ret tt)
            f.(rules) ;;
      emit SeccompLoad ;;
      ret tt
  | None => ret tt
  end.

(** [setup_io_redirection]. *)
Definition setup_io_redirection (config : SandboxConfiguration) : M unit :=
  (match config.(stdin) with
   | Some p => emit (OpenRead p) ;; check_syscall "dup2" (emit (Dup2 p 0)) ;; ret tt
   | None => ret tt
   end) ;;
  (match config.(stdout) with
   | Some p => emit (Create p) ;; check_syscall "dup2" (emit (Dup2 p 1)) ;; ret tt
   | None => ret tt
   end) ;;
  (match config.(stderr) with
   | Some p => emit (Create p) ;; check_syscall "dup2" (emit (Dup2 p 2)) ;; ret tt
   | None => ret tt
   end).

(** [setup_thread_affinity]. *)
Definition setup_thread_affinity (config : SandboxConfiguration) : M unit :=
  match config.(cpu_core) with
  | Some core => check_syscall "sched_setaffinity" (emit (SchedSetaffinity core)) ;; ret tt
  | None => ret tt
  end.

(** [enter_chroot]. *)
Definition enter_chroot (config : SandboxConfiguration) (sandbox_path : string)
  : M unit :=
  check_syscall "chroot" (emit (Chroot sandbox_path)) ;;
  check_syscall "chdir" (emit (Chdir config.(working_directory))) ;;
  ret tt.

(** [exec_child]; the oracle ([path_exists]) answers [Path::exists] inside the chroot. A
    successful [execve] replaces the process image: [Ok tt] below. *)
Definition exec_child (config : SandboxConfiguration) (path_exists : string -> bool)
  : M unit :=
  if negb (path_exists config.(executable))
  then panic "Executable doesn't exist inside the sandbox chroot. Perhaps you need to mount some directories?"
  else
    let argv := config.(executable) :: config.(args) in
    let envp := map (fun '(variable, value) => variable ++ "=" ++ value) config.(env) in
    check_syscall "execve" (emit (Execve config.(executable) argv envp)) ;;
    ret tt.

(** [child]. The leading assertions [getpid() == 1], [getuid() == 0] and
    [getgid() == 0] read no state of this model and are left out. *)
Definition child (kernel : kernel_answers) (config : SandboxConfiguration)
  (sandbox_path : string) (path_exists : string -> bool) : M unit :=
  setup_filesystem kernel config sandbox_path ;;
  linux_setup_resource_limits config ;;
  setup_syscall_filter config ;;
  setup_io_redirection config ;;
  setup_thread_affinity config ;;
  enter_chroot config sandbox_path ;;
  exec_child config path_exists.

(** The child branch of [watcher] after [clone] ([child_pid == 0]):
    identity maps from the watcher's [uid]/[gid], the parent-death signal,
    then [child]. *)
Definition watcher_child_identity (parent_uid parent_gid : Z) : M unit :=
  emit (WriteFile "/proc/self/setgroups" "deny") ;;
  emit (WriteFile "/proc/self/uid_map" ("0 " ++ dec parent_uid ++ " 1")) ;;
  emit (WriteFile "/proc/self/gid_map" ("0 " ++ dec parent_gid ++ " 1")) ;;
  check_syscall "prctl(PR_SET_PDEATHSIG, SIGKILL)" (emit (Prctl PR_SET_PDEATHSIG SIGKILL)) ;;
  ret tt.

Definition watcher_child (kernel : kernel_answers) (config : SandboxConfiguration)
  (sandbox_path : string) (parent_uid parent_gid : Z) (path_exists : string -> bool)
  : M unit :=
  watcher_child_identity parent_uid parent_gid ;;
  child kernel config sandbox_path path_exists.

(** The identity mapping as the specification words it: the configured
    in-sandbox ids mapped onto the parent's. *)
Definition spec_identity (config : SandboxConfiguration) (parent_uid parent_gid : Z)
  : list effect :=
  [WriteFile "/proc/self/setgroups" "deny";
   WriteFile "/proc/self/uid_map" (dec config.(uid) ++ " " ++ dec parent_uid ++ " 1");
   WriteFile "/proc/self/gid_map" (dec config.(gid) ++ " " ++ dec parent_gid ++ " 1")].

(** The body of the wall-time watcher thread spawned by [watcher]. *)
Definition linux_wall_time_watcher (kernel : kernel_answers) (limit child_pid : Z) : M unit :=
  emit (Sleep limit) ;;
  check_syscall "kill(child_pid, SIGKILL)" (sys kernel (SendSignal child_pid SIGKILL)) ;;
  emit (StoreKilled true) ;;
  ret tt.

(** The thread body of [util::start_wall_time_watcher] ([.expect] on the
    result of [kill]; the panic message continues with the error). *)
Definition util_wall_time_watcher (kernel : kernel_answers) (limit child_pid : Z) : M unit :=
  emit (Sleep limit) ;;
  r <- sys kernel (SendSignal child_pid SIGKILL) ;;
  (if r <? 0 then panic "Error killing child due to wall limit exceeded" else ret tt) ;;
  emit (StoreKilled true) ;;
  ret tt.

(** The wall-time watcher thread of [src/macos/mod.rs]. *)
Definition macos_wall_time_watcher (kernel : kernel_answers) (limit child_pid : Z) : M unit :=
  emit (Sleep limit) ;;
  check_syscall "libc::kill(child_pid, libc::SIGKILL)" (sys kernel (SendSignal child_pid SIGKILL)) ;;
  emit (StoreKilled true) ;;
  ret tt.

(* ------------------------------------------------------------------ *)
(** ** Resource limits of [src/util.rs] *)

(** [util::set_resource_limit]: read the current limits, cap the request
    at the hard limit, then [setrlimit]; [getrlimit] failing panics,
    [setrlimit] failing is an error. *)
Definition util_set_resource_limit (resource limit : Z) : M unit :=
  current_limit <- sys_getrlimit resource ;;
  let rlim_max := snd current_limit in
  let new_cur := if limit <? rlim_max then limit else rlim_max in
  let new_max := if limit <? rlim_max then limit else rlim_max in
  code <- sys_setrlimit resource new_cur new_max ;;
  if code <? 0 then fail "Error calling setrlimit()" else ret tt.

(** [.context(msg)?]. *)
Definition context {A} (msg : string) (m : M A) : M A :=
  fun s => match m s with
           | (Err e, s') => (Err (msg ++ ": " ++ e), s')
           | r => r
           end.

(** [util::setup_resource_limits] (non-macOS build). *)
Definition util_setup_resource_limits (config : SandboxConfiguration) : M unit :=
  (match config.(memory_limit) with
   | Some memory_limit =>
       context "Failed to set RLIMIT_AS" (util_set_resource_limit RLIMIT_AS memory_limit)
   | None => ret tt
   end) ;;
  (match config.(stack_limit) with
   | Some stack_limit =>
       context "Failed to set RLIMIT_STACK" (util_set_resource_limit RLIMIT_STACK stack_limit)
   | None =>
       context "Failed to set RLIMIT_STACK" (util_set_resource_limit RLIMIT_STACK RLIM_INFINITY)
   end) ;;
  (match config.(time_limit) with
   | Some time_limit =>
       context "Failed to set RLIMIT_CPU" (util_set_resource_limit RLIMIT_CPU time_limit)
   | None => ret tt
   end) ;;
  context "Failed to set RLIMIT_CORE" (util_set_resource_limit RLIMIT_CORE 0).

(* ------------------------------------------------------------------ *)
(** ** [SeccompFilter::filter] ([src/linux/seccomp_filter.rs]) *)

(** A libseccomp filter context: its default action and the rules added
    so far, as (action, syscall number) pairs. *)
Record scmp_ctx := {
  ctx_default : Z;
  ctx_rules : list (Z * Z)
}.

(** [__NR_SCMP_ERROR]. *)
Definition NR_SCMP_ERROR : Z := -1.

Definition has_nul (s : string) : bool :=
  match String.index 0 (String "000"%char EmptyString) s with
  | Some _ => true
  | None => false
  end.

Section SeccompFilter.
(** The library calls the method makes: name resolution, rule addition
    (returning the library's code and the new context), and the text of
    [strerror()] after a failure. *)
Variable seccomp_syscall_resolve_name : string -> Z.
Variable seccomp_rule_add : scmp_ctx -> Z -> Z -> Z * scmp_ctx.
Variable strerror : string.

(** [SeccompFilter::filter(&mut self, name, action)]; the [CString::new]
    of the name panics on an interior NUL. *)
Definition SeccompFilter_filter (ctx : scmp_ctx) (name : string)
  (action : SyscallFilterAction) : outcome unit * scmp_ctx :=
  if has_nul name
  then (Panic "called `Result::unwrap()` on an `Err` value", ctx)
  else
    let syscall_num := seccomp_syscall_resolve_name name in
    if syscall_num =? NR_SCMP_ERROR
    then (Err ("Error calling seccomp_syscall_resolve_name: unknown system call: " ++ name), ctx)
    else
      let '(rc, ctx') := seccomp_rule_add ctx (to_seccomp_param action) syscall_num in
      if rc <? 0
      then (Err ("Error calling seccomp_rule_add(): " ++ strerror), ctx')
      else (Ok tt, ctx').
End SeccompFilter.

(** A part of the x86_64 system call table as libseccomp resolves names. *)
Definition x86_64_resolve_name (name : string) : Z :=
  match name with
  | "read" => 0 | "write" => 1 | "open" => 2 | "clone" => 56 | "fork" => 57
  | "vfork" => 58 | "execve" => 59 | "chmod" => 90 | "fchmod" => 91
  | "getuid" => 102 | "fchmodat" => 268
  | _ => NR_SCMP_ERROR
  end.

(** libseccomp's [seccomp_rule_add] for a rule without argument filters:
    a rule whose action equals the filter's default action is refused
    with [-EACCES]. A syscall keeps one unconditional action: a second
    rule for a syscall that already has one is refused here ([-EEXIST]),
    and the properties below that use this function exclude that case.
    Otherwise the rule is added. *)
Definition libseccomp_rule_add (ctx : scmp_ctx) (action syscall : Z) : Z * scmp_ctx :=
  if action =? ctx.(ctx_default) then (-13, ctx)
  else if existsb (Z.eqb syscall) (map snd ctx.(ctx_rules)) then (-17, ctx)
  else (0, {| ctx_default := ctx.(ctx_default);
              ctx_rules := ctx.(ctx_rules) ++ [(action, syscall)] |}).

(** [s] occurs in [hay]. *)
Definition contains (hay s : string) : Prop := exists p q, hay = p ++ s ++ q.

(* ------------------------------------------------------------------ *)
(** ** Signal names ([ExitStatus::signal_name], [util::strsignal]) *)

Section SignalName.
(** The text libc's [strsignal(3)] returns for a signal number, and
    whether the build is for a Unix target. *)
Variable libc_strsignal : Z -> string.
Variable cfg_unix : bool.

(** [util::strsignal]: [None] when the C string is empty (or off Unix). *)
Definition strsignal (signal : Z) : option string :=
  if cfg_unix then
    let cstr := libc_strsignal signal in
    if String.eqb cstr "" then None else Some cstr
  else None.

(** [ExitStatus::signal_name]. *)
Definition signal_name (s : ExitStatus) : option string :=
  match s with
  | Signal signal => strsignal signal
  | _ => None
  end.
End SignalName.

(* ------------------------------------------------------------------ *)
(** ** JSON encoding of the result (serde derive, serde_json) *)

(** A JSON value as serde_json's serializer writes it: integers and
    floats are kept apart because serde writes them through different
    methods ([serialize_i32]/[serialize_u64] against [serialize_f64]). *)
#[local] Set Warnings "-register-all".
Inductive json :=
| JNull
| JBool (b : bool)
| JInt (z : Z)
| JFloat (f : f64)
| JString (s : string)
| JArray (items : list json)
| JObject (fields : list (string * json)).

Definition f64_is_finite (f : f64) : bool :=
  match f with
  | S754_zero _ | S754_finite _ _ _ => true
  | S754_infinity _ | S754_nan => false
  end.

(** serde_json's [serialize_f64]: NaN and infinities are written as [null]. *)
Definition ser_f64 (f : f64) : json := if f64_is_finite f then JFloat f else JNull.

(** [#[derive(Serialize)]] on [ExitStatus] (externally tagged enum). *)
Definition ser_ExitStatus (s : ExitStatus) : json :=
  match s with
  | ExitCode c => JObject [("ExitCode", JInt c)]
  | Signal n => JObject [("Signal", JInt n)]
  | Killed => JString "Killed"
  end.

Definition ser_ResourceUsage (u : ResourceUsage) : json :=
  JObject [("memory_usage", JInt u.(memory_usage));
           ("user_cpu_time", ser_f64 u.(user_cpu_time));
           ("system_cpu_time", ser_f64 u.(system_cpu_time));
           ("wall_time_usage", ser_f64 u.(wall_time_usage))].

Definition ser_SandboxExecutionResult (r : SandboxExecutionResult) : json :=
  JObject [("status", ser_ExitStatus r.(status));
           ("resource_usage", ser_ResourceUsage r.(resource_usage))].

Definition i32_range (z : Z) : bool := (-2147483648 <=? z) && (z <? 2147483648).
Definition u64_range (z : Z) : bool := (0 <=? z) && (z <? 18446744073709551616).

Section Deserialize.
(** serde_json's reading of a number it parses as a float: [parse_f64]
    maps the value that was printed to the value read back from its
    text; [int_to_f64] is the [as f64] conversion of an integer token. *)
Variable parse_f64 : f64 -> f64.
Variable int_to_f64 : Z -> f64.

Definition de_i32 (j : json) : outcome Z :=
  match j with
  | JInt z => if i32_range z then Ok z else Err "invalid value: integer, expected i32"
  | _ => Err "invalid type: expected i32"
  end.

Definition de_u64 (j : json) : outcome Z :=
  match j with
  | JInt z => if u64_range z then Ok z else Err "invalid value: integer, expected u64"
  | _ => Err "invalid type: expected u64"
  end.

Definition de_f64 (j : json) : outcome f64 :=
  match j with
  | JFloat f => Ok (parse_f64 f)
  | JInt z => Ok (int_to_f64 z)
  | JNull => Err "invalid type: null, expected f64"
  | _ => Err "invalid type: expected f64"
  end.

(** The value of a struct field; a missing field is an error. *)
Definition de_field (fields : list (string * json)) (name : string) : outcome json :=
  match find (fun kv => String.eqb (fst kv) name) fields with
  | Some (_, v) => Ok v
  | None => Err ("missing field `" ++ name ++ "`")
  end.

Definition obind {A B} (m : outcome A) (k : A -> outcome B) : outcome B :=
  match m with
  | Ok a => k a
  | Err e => Err e
  | Panic e => Panic e
  end.

(** [#[derive(Deserialize)]] on [ExitStatus]. *)
Definition de_ExitStatus (j : json) : outcome ExitStatus :=
  match j with
  | JString "Killed" => Ok Killed
  | JObject [("Killed", JNull)] => Ok Killed
  | JObject [("ExitCode", v)] => obind (de_i32 v) (fun c => Ok (ExitCode c))
  | JObject [("Signal", v)] => obind (de_i32 v) (fun n => Ok (Signal n))
  | _ => Err "invalid value: expected enum ExitStatus"
  end.

Definition de_ResourceUsage (j : json) : outcome ResourceUsage :=
  match j with
  | JObject fields =>
      obind (obind (de_field fields "memory_usage") de_u64) (fun m =>
      obind (obind (de_field fields "user_cpu_time") de_f64) (fun u =>
      obind (obind (de_field fields "system_cpu_time") de_f64) (fun s =>
      obind (obind (de_field fields "wall_time_usage") de_f64) (fun w =>
      Ok {| memory_usage := m; user_cpu_time := u;
            system_cpu_time := s; wall_time_usage := w |}))))
  | _ => Err "invalid type: expected struct ResourceUsage"
  end.

Definition de_SandboxExecutionResult (j : json) : outcome SandboxExecutionResult :=
  match j with
  | JObject fields =>
      obind (obind (de_field fields "status") de_ExitStatus) (fun st =>
      obind (obind (de_field fields "resource_usage") de_ResourceUsage) (fun ru =>
      Ok {| status := st; resource_usage := ru |}))
  | _ => Err "invalid type: expected struct SandboxExecutionResult"
  end.
End Deserialize.

(** The Rust types bound the integers of a result. *)
Definition wf_result (r : SandboxExecutionResult) : bool :=
  match r.(status) with
  | ExitCode c => i32_range c
  | Signal n => i32_range n
  | Killed => true
  end && u64_range r.(resource_usage).(memory_usage).

(* ------------------------------------------------------------------ *)
(** ** The command line front-end ([src/bin/tabox.rs]) *)

(** [struct Args], as StructOpt hands it to [main]. *)
Record Args := {
  a_time_limit : option Z;
  a_memory_limit : option Z;
  a_executable : string;
  a_args : list string;
  a_env : list string;
  a_mount : list string;
  a_working_directory : option string;
  a_allow_chmod : bool;
  a_allow_multiprocess : bool;
  a_stdin : option string;
  a_stdout : option string;
  a_stderr : option string;
  a_allow_insecure : bool;
  a_json : bool;
  a_mount_tmpfs : bool;
  a_wall_limit : option Z;
  a_cpu_core : option Z;
  a_uid : Z;
  a_gid : Z;
  a_mount_proc : bool
}.

(** The builder methods of [SandboxConfiguration] used by [main]
    ([&mut self] setters, here functions from the old value to the new). *)
Definition set_executable (v : string) (c : SandboxConfiguration) := {|
  time_limit := c.(time_limit); memory_limit := c.(memory_limit); stack_limit := c.(stack_limit);
  executable := v; args := c.(args); env := c.(env); mount_paths := c.(mount_paths);
  working_directory := c.(working_directory); stdin := c.(stdin); stdout := c.(stdout);
  stderr := c.(stderr); syscall_filter := c.(syscall_filter); mount_tmpfs := c.(mount_tmpfs);
  wall_time_limit := c.(wall_time_limit); cpu_core := c.(cpu_core); uid := c.(uid);
  gid := c.(gid); mount_proc := c.(mount_proc) |}.
Definition set_mount_tmpfs (v : bool) (c : SandboxConfiguration) := {|
  time_limit := c.(time_limit); memory_limit := c.(memory_limit); stack_limit := c.(stack_limit);
  executable := c.(executable); args := c.(args); env := c.(env); mount_paths := c.(mount_paths);
  working_directory := c.(working_directory); stdin := c.(stdin); stdout := c.(stdout);
  stderr := c.(stderr); syscall_filter := c.(syscall_filter); mount_tmpfs := v;
  wall_time_limit := c.(wall_time_limit); cpu_core := c.(cpu_core); uid := c.(uid);
  gid := c.(gid); mount_proc := c.(mount_proc) |}.
Definition set_uid (v : Z) (c : SandboxConfiguration) := {|
  time_limit := c.(time_limit); memory_limit := c.(memory_limit); stack_limit := c.(stack_limit);
  executable := c.(executable); args := c.(args); env := c.(env); mount_paths := c.(mount_paths);
  working_directory := c.(working_directory); stdin := c.(stdin); stdout := c.(stdout);
  stderr := c.(stderr); syscall_filter := c.(syscall_filter); mount_tmpfs := c.(mount_tmpfs);
  wall_time_limit := c.(wall_time_limit); cpu_core := c.(cpu_core); uid := v;
  gid := c.(gid); mount_proc := c.(mount_proc) |}.
Definition set_gid (v : Z) (c : SandboxConfiguration) := {|
  time_limit := c.(time_limit); memory_limit := c.(memory_limit); stack_limit := c.(stack_limit);
  executable := c.(executable); args := c.(args); env := c.(env); mount_paths := c.(mount_paths);
  working_directory := c.(working_directory); stdin := c.(stdin); stdout := c.(stdout);
  stderr := c.(stderr); syscall_filter := c.(syscall_filter); mount_tmpfs := c.(mount_tmpfs);
  wall_time_limit := c.(wall_time_limit); cpu_core := c.(cpu_core); uid := c.(uid);
  gid := v; mount_proc := c.(mount_proc) |}.
Definition set_mount_proc (v : bool) (c : SandboxConfiguration) := {|
  time_limit := c.(time_limit); memory_limit := c.(memory_limit); stack_limit := c.(stack_limit);
  executable := c.(executable); args := c.(args); env := c.(env); mount_paths := c.(mount_paths);
  working_directory := c.(working_directory); stdin := c.(stdin); stdout := c.(stdout);
  stderr := c.(stderr); syscall_filter := c.(syscall_filter); mount_tmpfs := c.(mount_tmpfs);
  wall_time_limit := c.(wall_time_limit); cpu_core := c.(cpu_core); uid := c.(uid);
  gid := c.(gid); mount_proc := v |}.
Definition set_time_limit (v : Z) (c : SandboxConfiguration) := {|
  time_limit := Some v; memory_limit := c.(memory_limit); stack_limit := c.(stack_limit);
  executable := c.(executable); args := c.(args); env := c.(env); mount_paths := c.(mount_paths);
  working_directory := c.(working_directory); stdin := c.(stdin); stdout := c.(stdout);
  stderr := c.(stderr); syscall_filter := c.(syscall_filter); mount_tmpfs := c.(mount_tmpfs);
  wall_time_limit := c.(wall_time_limit); cpu_core := c.(cpu_core); uid := c.(uid);
  gid := c.(gid); mount_proc := c.(mount_proc) |}.
Definition set_memory_limit (v : Z) (c : SandboxConfiguration) := {|
  time_limit := c.(time_limit); memory_limit := Some v; stack_limit := c.(stack_limit);
  executable := c.(executable); args := c.(args); env := c.(env); mount_paths := c.(mount_paths);
  working_directory := c.(working_directory); stdin := c.(stdin); stdout := c.(stdout);
  stderr := c.(stderr); syscall_filter := c.(syscall_filter); mount_tmpfs := c.(mount_tmpfs);
  wall_time_limit := c.(wall_time_limit); cpu_core := c.(cpu_core); uid := c.(uid);
  gid := c.(gid); mount_proc := c.(mount_proc) |}.
Definition set_wall_time_limit (v : Z) (c : SandboxConfiguration) := {|
  time_limit := c.(time_limit); memory_limit := c.(memory_limit); stack_limit := c.(stack_limit);
  executable := c.(executable); args := c.(args); env := c.(env); mount_paths := c.(mount_paths);
  working_directory := c.(working_directory); stdin := c.(stdin); stdout := c.(stdout);
  stderr := c.(stderr); syscall_filter := c.(syscall_filter); mount_tmpfs := c.(mount_tmpfs);
  wall_time_limit := Some v; cpu_core := c.(cpu_core); uid := c.(uid);
  gid := c.(gid); mount_proc := c.(mount_proc) |}.
Definition set_stdin (v : string) (c : SandboxConfiguration) := {|
  time_limit := c.(time_limit); memory_limit := c.(memory_limit); stack_limit := c.(stack_limit);
  executable := c.(executable); args := c.(args); env := c.(env); mount_paths := c.(mount_paths);
  working_directory := c.(working_directory); stdin := Some v; stdout := c.(stdout);
  stderr := c.(stderr); syscall_filter := c.(syscall_filter); mount_tmpfs := c.(mount_tmpfs);
  wall_time_limit := c.(wall_time_limit); cpu_core := c.(cpu_core); uid := c.(uid);
  gid := c.(gid); mount_proc := c.(mount_proc) |}.
Definition set_stdout (v : string) (c : SandboxConfiguration) := {|
  time_limit := c.(time_limit); memory_limit := c.(memory_limit); stack_limit := c.(stack_limit);
  executable := c.(executable); args := c.(args); env := c.(env); mount_paths := c.(mount_paths);
  working_directory := c.(working_directory); stdin := c.(stdin); stdout := Some v;
  stderr := c.(stderr); syscall_filter := c.(syscall_filter); mount_tmpfs := c.(mount_tmpfs);
  wall_time_limit := c.(wall_time_limit); cpu_core := c.(cpu_core); uid := c.(uid);
  gid := c.(gid); mount_proc := c.(mount_proc) |}.
Definition set_stderr (v : string) (c : SandboxConfiguration) := {|
  time_limit := c.(time_limit); memory_limit := c.(memory_limit); stack_limit := c.(stack_limit);
  executable := c.(executable); args := c.(args); env := c.(env); mount_paths := c.(mount_paths);
  working_directory := c.(working_directory); stdin := c.(stdin); stdout := c.(stdout);
  stderr := Some v; syscall_filter := c.(syscall_filter); mount_tmpfs := c.(mount_tmpfs);
  wall_time_limit := c.(wall_time_limit); cpu_core := c.(cpu_core); uid := c.(uid);
  gid := c.(gid); mount_proc := c.(mount_proc) |}.
Definition set_working_directory (v : string) (c : SandboxConfiguration) := {|
  time_limit := c.(time_limit); memory_limit := c.(memory_limit); stack_limit := c.(stack_limit);
  executable := c.(executable); args := c.(args); env := c.(env); mount_paths := c.(mount_paths);
  working_directory := v; stdin := c.(stdin); stdout := c.(stdout);
  stderr := c.(stderr); syscall_filter := c.(syscall_filter); mount_tmpfs := c.(mount_tmpfs);
  wall_time_limit := c.(wall_time_limit); cpu_core := c.(cpu_core); uid := c.(uid);
  gid := c.(gid); mount_proc := c.(mount_proc) |}.
Definition run_on_core (v : Z) (c : SandboxConfiguration) := {|
  time_limit := c.(time_limit); memory_limit := c.(memory_limit); stack_limit := c.(stack_limit);
  executable := c.(executable); args := c.(args); env := c.(env); mount_paths := c.(mount_paths);
  working_directory := c.(working_directory); stdin := c.(stdin); stdout := c.(stdout);
  stderr := c.(stderr); syscall_filter := c.(syscall_filter); mount_tmpfs := c.(mount_tmpfs);
  wall_time_limit := c.(wall_time_limit); cpu_core := Some v; uid := c.(uid);
  gid := c.(gid); mount_proc := c.(mount_proc) |}.
Definition push_arg (v : string) (c : SandboxConfiguration) := {|
  time_limit := c.(time_limit); memory_limit := c.(memory_limit); stack_limit := c.(stack_limit);
  executable := c.(executable); args := c.(args) ++ [v]; env := c.(env); mount_paths := c.(mount_paths);
  working_directory := c.(working_directory); stdin := c.(stdin); stdout := c.(stdout);
  stderr := c.(stderr); syscall_filter := c.(syscall_filter); mount_tmpfs := c.(mount_tmpfs);
  wall_time_limit := c.(wall_time_limit); cpu_core := c.(cpu_core); uid := c.(uid);
  gid := c.(gid); mount_proc := c.(mount_proc) |}.
Definition push_env (variable value : string) (c : SandboxConfiguration) := {|
  time_limit := c.(time_limit); memory_limit := c.(memory_limit); stack_limit := c.(stack_limit);
  executable := c.(executable); args := c.(args); env := c.(env) ++ [(variable, value)];
  mount_paths := c.(mount_paths);
  working_directory := c.(working_directory); stdin := c.(stdin); stdout := c.(stdout);
  stderr := c.(stderr); syscall_filter := c.(syscall_filter); mount_tmpfs := c.(mount_tmpfs);
  wall_time_limit := c.(wall_time_limit); cpu_core := c.(cpu_core); uid := c.(uid);
  gid := c.(gid); mount_proc := c.(mount_proc) |}.
Definition push_mount (src tgt : string) (w : bool) (c : SandboxConfiguration) := {|
  time_limit := c.(time_limit); memory_limit := c.(memory_limit); stack_limit := c.(stack_limit);
  executable := c.(executable); args := c.(args); env := c.(env);
  mount_paths := c.(mount_paths) ++ [{| source := src; target := tgt; writable := w |}];
  working_directory := c.(working_directory); stdin := c.(stdin); stdout := c.(stdout);
  stderr := c.(stderr); syscall_filter := c.(syscall_filter); mount_tmpfs := c.(mount_tmpfs);
  wall_time_limit := c.(wall_time_limit); cpu_core := c.(cpu_core); uid := c.(uid);
  gid := c.(gid); mount_proc := c.(mount_proc) |}.
Definition set_syscall_filter (v : SyscallFilter) (c : SandboxConfiguration) := {|
  time_limit := c.(time_limit); memory_limit := c.(memory_limit); stack_limit := c.(stack_limit);
  executable := c.(executable); args := c.(args); env := c.(env); mount_paths := c.(mount_paths);
  working_directory := c.(working_directory); stdin := c.(stdin); stdout := c.(stdout);
  stderr := c.(stderr); syscall_filter := Some v; mount_tmpfs := c.(mount_tmpfs);
  wall_time_limit := c.(wall_time_limit); cpu_core := c.(cpu_core); uid := c.(uid);
  gid := c.(gid); mount_proc := c.(mount_proc) |}.

(** [str::splitn(2, c)]: [None] when [c] does not occur (one part). *)
Fixpoint split_first (c : ascii) (s : string) : option (string * string) :=
  match s with
  | EmptyString => None
  | String x rest =>
      if Ascii.eqb x c then Some (EmptyString, rest)
      else match split_first c rest with
           | Some (l, r) => Some (String x l, r)
           | None => None
           end
  end.

(** [str::split(c)]: always at least one part. *)
Fixpoint split_all (c : ascii) (s : string) : list string :=
  match s with
  | EmptyString => [EmptyString]
  | String x rest =>
      if Ascii.eqb x c then EmptyString :: split_all c rest
      else match split_all c rest with
           | p :: ps => String x p :: ps
           | [] => [String x EmptyString]
           end
  end.

(** The [match parts[..]] of the [--mount] loop. *)
Definition parse_mount (path : string) : option (string * string * bool) :=
  match split_all ","%char path with
  | [local] => Some (local, local, false)
  | [local; "rw"] => Some (local, local, true)
  | [local; sandbox] => Some (local, sandbox, false)
  | [local; sandbox; "rw"] => Some (local, sandbox, true)
  | [local; sandbox; "ro"] => Some (local, sandbox, false)
  | _ => None
  end.

Inductive stream := Stdout | Stderr.

Inductive main_exit :=
| ProcessExit (code : Z)      (* std::process::exit *)
| ReturnOk                    (* main returns Ok(()) *)
| ReturnErr (msg : string)    (* main returns Err(_) *)
| Panicked (msg : string).    (* main panics *)

(** What [SandboxImplementation::run] followed by [wait] answers: [wait]
    may also panic (the Linux backend's [join().unwrap()] when the watcher
    thread panicked). *)
Inductive sandbox_answer :=
| RunFailed (msg : string)
| WaitFailed (msg : string)
| WaitPanicked (msg : string)
| Finished (r : SandboxExecutionResult).

(** One execution of [main]: the lines it prints, with their stream, the
    configuration it hands to [run] (if it gets there), and how it ends. *)
Record main_run := {
  writes : list (stream * string);
  ran_with : option SandboxConfiguration;
  exit_ : main_exit
}.

Definition newline : string := String (ascii_of_nat 10) EmptyString.

(** [eprintln!]. *)
Definition eprintln (s : string) : stream * string := (Stderr, s ++ newline).

Section Main.
(** [SandboxImplementation::is_secure()], [std::env::var], the sandbox
    itself, and the two formatters ([serde_json::to_string] on the JSON
    value, [{:#?}]). [getenv name] is [Some value] when [std::env::var]
    returns [Ok(value)], and [None] when it fails: the variable is unset
    ([NotPresent]) or its value is not valid Unicode ([NotUnicode]). *)
Variable is_secure : bool.
Variable getenv : string -> option string.
Variable sandbox : SandboxConfiguration -> sandbox_answer.
Variable json_to_string : json -> string.
Variable debug_fmt : SandboxExecutionResult -> string.

(** The [--env] loop. *)
Fixpoint add_env (config : SandboxConfiguration) (l : list string)
  : outcome SandboxConfiguration :=
  match l with
  | [] => Ok config
  | el :: l' =>
      match split_first "="%char el with
      | None =>
          match getenv el with
          | Some value => add_env (push_env el value config) l'
          | None => Err ("Variable " ++ el ++ " not present in the environment")
          end
      | Some (name, value) => add_env (push_env name value config) l'
      end
  end.

(** The [--mount] loop. *)
Fixpoint add_mounts (config : SandboxConfiguration) (l : list string)
  : outcome SandboxConfiguration :=
  match l with
  | [] => Ok config
  | path :: l' =>
      match parse_mount path with
      | Some (local, sandbox, writable) =>
          add_mounts (push_mount local sandbox writable config) l'
      | None => Err ("Invalid mount point: " ++ path)
      end
  end.

(** [main]. The megabyte conversion [memory_limit * 1_000_000] is a [u64]
    multiplication, wrapping as in a release build. *)
Definition tabox_main (a : Args) : main_run :=
  if negb is_secure && negb a.(a_allow_insecure) then
    {| writes := [eprintln "Your platform doesn't support a secure sandbox!";
                  eprintln "Run with --allow-insecure if you really want to execute it anyway"];
       ran_with := None; exit_ := ProcessExit 1 |}
  else
    let config := set_mount_proc a.(a_mount_proc) (set_gid a.(a_gid) (set_uid a.(a_uid)
                    (set_mount_tmpfs a.(a_mount_tmpfs)
                      (set_executable a.(a_executable) SandboxConfiguration_default)))) in
    let config := match a.(a_time_limit) with
                  | Some t => set_time_limit t config | None => config end in
    let config := match a.(a_memory_limit) with
                  | Some m => set_memory_limit ((m * 1000000) mod 18446744073709551616) config
                  | None => config end in
    let config := match a.(a_wall_limit) with
                  | Some w => set_wall_time_limit w config | None => config end in
    let config := match a.(a_stdin) with
                  | Some p => set_stdin p config | None => config end in
    let config := match a.(a_stdout) with
                  | Some p => set_stdout p config | None => config end in
    let config := match a.(a_stderr) with
                  | Some p => set_stderr p config | None => config end in
    let config := match a.(a_working_directory) with
                  | Some p => set_working_directory p config | None => config end in
    let config := match a.(a_cpu_core) with
                  | Some core => run_on_core core config | None => config end in
    let config := fold_left (fun c arg => push_arg arg c) a.(a_args) config in
    match add_env config a.(a_env) with
    | Err e | Panic e => {| writes := []; ran_with := None; exit_ := ReturnErr e |}
    | Ok config =>
    match add_mounts config a.(a_mount) with
    | Err e | Panic e => {| writes := []; ran_with := None; exit_ := ReturnErr e |}
    | Ok config =>
    let config := set_syscall_filter
                    (SyscallFilter_build a.(a_allow_multiprocess) a.(a_allow_chmod)) config in
    match sandbox config with
    | RunFailed e =>
        {| writes := []; ran_with := Some config;
           exit_ := ReturnErr ("Error running the sandbox: " ++ e) |}
    | WaitFailed e =>
        {| writes := []; ran_with := Some config;
           exit_ := ReturnErr ("Error waiting for sandbox result: " ++ e) |}
    | WaitPanicked e =>
        {| writes := []; ran_with := Some config; exit_ := Panicked e |}
    | Finished result =>
        {| writes := [if a.(a_json)
                      then eprintln (json_to_string (ser_SandboxExecutionResult result))
                      else eprintln (debug_fmt result)];
           ran_with := Some config; exit_ := ReturnOk |}
    end
    end
    end.
End Main.

(** The configuration the command line builds with no option but the
    preset filter. *)
Definition config_cli_filter : SandboxConfiguration :=
  set_syscall_filter (SyscallFilter_build false false) SandboxConfiguration_default.

(* ------------------------------------------------------------------ *)
(** ** Further parts of the sources *)

(** [ExitStatus::success] ([src/result.rs]): [self == ExitStatus::ExitCode(0)]. *)
Definition ExitStatus_success (s : ExitStatus) : bool :=
  match s with
  | ExitCode c => c =? 0
  | _ => false
  end.

(** [seccomp_init(default_action)] ([SeccompFilter::new]) as libseccomp
    answers it: a fresh context with the given default and no rule. *)
Definition libseccomp_init (default_param : Z) : scmp_ctx :=
  {| ctx_default := default_param; ctx_rules := [] |}.

(** No number occurs twice in [l]. *)
Fixpoint distinct (l : list Z) : bool :=
  match l with
  | [] => true
  | x :: l' => negb (existsb (Z.eqb x) l') && distinct l'
  end.

Section FilterLoop.
Variable seccomp_syscall_resolve_name : string -> Z.
Variable seccomp_rule_add : scmp_ctx -> Z -> Z -> Z * scmp_ctx.
Variable strerror : string.

(** The loop of [setup_syscall_filter]:
<<
    for (syscall, action) in &syscall_filter.rules {
        filter.filter(syscall, *action);
    }
>>
    The call site discards the [Result] of each call and goes on with the
    next rule; the results are collected here. A panic ends the loop. *)
Fixpoint filter_rules (ctx : scmp_ctx) (rules : list (string * SyscallFilterAction))
  : list (outcome unit) * scmp_ctx :=
  match rules with
  | [] => ([], ctx)
  | (syscall, action) :: rest =>
      match SeccompFilter_filter seccomp_syscall_resolve_name seccomp_rule_add strerror
              ctx syscall action with
      | (Panic e, ctx') => ([Panic e], ctx')
      | (r, ctx') =>
          let '(rs, ctx'') := filter_rules ctx' rest in (r :: rs, ctx'')
      end
  end.
End FilterLoop.

(** [c] occurs in [s]. *)
Fixpoint has_char (c : ascii) (s : string) : bool :=
  match s with
  | EmptyString => false
  | String x rest => Ascii.eqb x c || has_char c rest
  end.

(** The integers [z], [z + 1], ..., [z + n - 1]: the range an
    exhaustive check of the low 16 bits of a wait status runs over. *)
Fixpoint zseq (z : Z) (n : nat) : list Z :=
  match n with
  | O => []
  | S n' => z :: zseq (z + 1) n'
  end.

Definition low16_range : list Z := zseq 0 (Z.to_nat 65536).

(** A mount target [mount_dir] accepts: not ["/"] (its [assert_ne!])
    and absolute (its [strip_prefix("/").unwrap()]). *)
Definition valid_mount_target (t : string) : bool :=
  negb (String.eqb t "/") && starts_with_slash t.

(** The effects of [mount_dir] for an accepted target [t]: the bind
    mount, then a read-only remount unless the directory is writable. *)
Definition mount_dir_effects (dir : DirectoryMount) (t : string) : list effect :=
  ([CreateDirAll t; Mount dir.(source) t "" (Z.lor MS_BIND MS_REC) ""] ++
   (if dir.(writable) then []
    else [CreateDirAll t; Mount "" t "" (Z.lor (Z.lor MS_REMOUNT MS_RDONLY) MS_BIND) ""]))%list.


(** A path component [Path::components] yields as [Normal]: not empty
    (a doubled or trailing separator) and not [.]. *)
Definition plain_component (c : string) : bool :=
  negb (String.eqb c "") && negb (String.eqb c ".").



(** A configuration without its list fields (arguments, environment,
    mounts). *)
Definition config_scalars (c : SandboxConfiguration) : SandboxConfiguration := {|
  time_limit := c.(time_limit); memory_limit := c.(memory_limit); stack_limit := c.(stack_limit);
  executable := c.(executable); args := []; env := []; mount_paths := [];
  working_directory := c.(working_directory); stdin := c.(stdin); stdout := c.(stdout);
  stderr := c.(stderr); syscall_filter := c.(syscall_filter); mount_tmpfs := c.(mount_tmpfs);
  wall_time_limit := c.(wall_time_limit); cpu_core := c.(cpu_core); uid := c.(uid);
  gid := c.(gid); mount_proc := c.(mount_proc) |}.

(** An [--env] argument and the entry it adds: split at its first [=],
    or, without [=], the variable's value in the supervisor's environment. *)
Definition env_entry (getenv : string -> option string) (el : string) (kv : string * string)
  : Prop :=
  split_first "="%char el = Some kv \/
  (split_first "="%char el = None /\ fst kv = el /\ getenv el = Some (snd kv)).

(** A [--mount] argument and the mount it adds. *)
Definition mount_entry (path : string) (d : DirectoryMount) : Prop :=
  parse_mount path = Some (d.(source), d.(target), d.(writable)).

(* ================================================================== *)
(** * Properties *)

(** ** Evaluations of the model on small inputs *)

Example wait_exit_3 : linux_exit_status false 768 = ExitCode 3.
Proof. reflexivity. Qed.
Example wait_signal_11 : linux_exit_status false 11 = Signal 11.
Proof. reflexivity. Qed.
Example wait_core_dump_signal : spec_exit_status false 139 = Ok (Signal 11).
Proof. reflexivity. Qed.
Example build_default_filter :
  SyscallFilter_build false true =
  {| default_action := Allow;
     rules := [("fork", Kill); ("vfork", Kill); ("clone", Kill)] |}.
Proof. reflexivity. Qed.
Example parse_mount_rw : parse_mount "/tmp/a,rw" = Some ("/tmp/a", "/tmp/a", true).
Proof. reflexivity. Qed.
Example parse_mount_rebind : parse_mount "/a,/b" = Some ("/a", "/b", false).
Proof. reflexivity. Qed.
Example parse_mount_bad : parse_mount "/a,/b,xx" = None.
Proof. reflexivity. Qed.
Example dec_1000 : dec 1000 = "1000".
Proof. reflexivity. Qed.

(** ** Exit status translation *)

(** The wait statuses the specification classifies: normal exits and
    signal terminations. *)
Definition classified (status : Z) : bool := WIFEXITED status || WIFSIGNALED status.

(** C1. The supervisor's translation of the reaped child's wait status.
    The killed flag takes precedence: with the flag set, the Linux
    supervisor and the degraded backend both report [Killed], whatever
    the status, also a signal termination. [wait4(child_pid, .., 0, ..)]
    without [WUNTRACED] reaps only exits and signal terminations
    ([classified]); on those, without the flag, both backends give the
    specification's translation: [ExitCode(WEXITSTATUS)] for an exit,
    [Signal(WTERMSIG)] for a signal termination. For any other status
    the specification's translation is a supervisor error, and so is the
    degraded backend's ([unreachable!()]). *)
Theorem C1_linux_exit_status :
  (forall status, linux_exit_status true status = Killed /\
                  macos_exit_status true status = Ok Killed /\
                  spec_exit_status true status = Ok Killed) /\
  (forall killed status, classified status = true ->
     spec_exit_status killed status = Ok (linux_exit_status killed status) /\
     macos_exit_status killed status = spec_exit_status killed status) /\
  (forall status, WIFEXITED status = true ->
     spec_exit_status false status = Ok (ExitCode (WEXITSTATUS status))) /\
  (forall status, WIFEXITED status = false -> WIFSIGNALED status = true ->
     spec_exit_status false status = Ok (Signal (WTERMSIG status))) /\
  (forall status, classified status = false ->
     spec_exit_status false status = Err "unknown status" /\
     macos_exit_status false status = Panic "internal error: entered unreachable code").
Proof.
  unfold linux_exit_status, spec_exit_status, macos_exit_status, std_code, std_signal,
    classified.
  split; [intros status; repeat split|].
  split; [|split; [intros status H; rewrite H; reflexivity|split]].
  - intros [|] status H; [split; reflexivity|].
    destruct (WIFEXITED status); [split; reflexivity|].
    simpl in H. rewrite H. split; reflexivity.
  - intros status H1 H2. rewrite H1, H2. reflexivity.
  - intros status H. apply orb_false_iff in H as [H1 H2].
    rewrite H1, H2. split; reflexivity.
Qed.

Lemma C1_witness :
  classified 768 = true /\
  spec_exit_status false 768 = Ok (linux_exit_status false 768) /\
  linux_exit_status false 768 = ExitCode 3 /\
  classified 137 = true /\
  macos_exit_status false 137 = Ok (Signal 9) /\
  classified 4991 = false /\
  spec_exit_status false 4991 = Err "unknown status".
Proof.
  destruct C1_linux_exit_status as (_ & Hcl & _ & _ & Hother).
  split; [reflexivity|]. split; [apply (proj1 (Hcl false 768 eq_refl))|].
  split; [reflexivity|]. split; [reflexivity|].
  split; [rewrite (proj2 (Hcl false 137 eq_refl)); reflexivity|].
  split; [reflexivity|]. apply (proj1 (Hother 4991 eq_refl)).
Defined.

(** ** Identity mapping *)

Definition kstate0 : kstate :=
  {| rlimits := fun _ => (RLIM_INFINITY, RLIM_INFINITY); trace := [] |}.

Definition config_uid_1000 : SandboxConfiguration :=
  set_gid 1000 (set_uid 1000 SandboxConfiguration_default).

(** C3 (code bug, evaluated at the failing input). A sandbox configured
    with uid = gid = 1000, started by a user with uid = gid = 1000: the
    child maps in-sandbox id 0, not the configured 1000, onto the parent's
    ids ("0 1000 1"), so the identity inside the sandbox is 0/0. *)
Theorem C3_identity_ignores_config :
  firstn 3 (trace (snd (watcher_child kernel_accepts config_uid_1000 "/tmp/tabox" 1000 1000
                          (fun _ => true) kstate0))) =
    [WriteFile "/proc/self/setgroups" "deny";
     WriteFile "/proc/self/uid_map" "0 1000 1";
     WriteFile "/proc/self/gid_map" "0 1000 1"] /\
  spec_identity config_uid_1000 1000 1000 =
    [WriteFile "/proc/self/setgroups" "deny";
     WriteFile "/proc/self/uid_map" "1000 1000 1";
     WriteFile "/proc/self/gid_map" "1000 1000 1"].
Proof. split; vm_compute; reflexivity. Qed.

(** ** Wall-time watcher *)

(** The outcome of a wall-time watcher body that panics with [msg] when
    [kill] fails: the sleep, the kill, and only after a successful kill
    the store of the killed flag. *)
Definition wall_watcher_result (msg : string) (kernel : kernel_answers) (limit child_pid : Z)
  (s : kstate) : outcome unit * kstate :=
  let h := (trace s ++ [Sleep limit])%list in
  if kernel h (SendSignal child_pid SIGKILL) <? 0
  then (Panic msg, {| rlimits := rlimits s; trace := (h ++ [SendSignal child_pid SIGKILL])%list |})
  else (Ok tt, {| rlimits := rlimits s;
                  trace := (h ++ [SendSignal child_pid SIGKILL; StoreKilled true])%list |}).

(** C4 (code bug, evaluated at the failing input). In all three wall-time
    watchers (Linux supervisor, [util::start_wall_time_watcher], degraded
    backend) the thread sleeps, sends SIGKILL, and stores [true] in the
    killed flag only after the kill: the flag is never stored before the
    kill, and not at all when [kill] fails (the thread panics). With a
    one-second limit, child pid 42 and a kernel that accepts the kill, the
    Linux watcher's effects are the sleep, the kill, then the flag store;
    a supervisor that reaps the SIGKILLed child (wait status 9) and reads
    the flag between the last two reports [Signal(9)], not [Killed]. *)
Theorem C4_kill_then_flag :
  (forall kernel limit child_pid s,
     linux_wall_time_watcher kernel limit child_pid s =
       wall_watcher_result "kill(child_pid, SIGKILL) failed" kernel limit child_pid s /\
     util_wall_time_watcher kernel limit child_pid s =
       wall_watcher_result "Error killing child due to wall limit exceeded"
         kernel limit child_pid s /\
     macos_wall_time_watcher kernel limit child_pid s =
       wall_watcher_result "libc::kill(child_pid, libc::SIGKILL) failed"
         kernel limit child_pid s) /\
  trace (snd (linux_wall_time_watcher kernel_accepts 1 42 kstate0)) =
    [Sleep 1; SendSignal 42 SIGKILL; StoreKilled true] /\
  linux_exit_status false SIGKILL = Signal SIGKILL /\
  macos_exit_status false SIGKILL = Ok (Signal SIGKILL).
Proof.
  split; [|repeat split; reflexivity].
  intros kernel limit child_pid s.
  unfold linux_wall_time_watcher, util_wall_time_watcher, macos_wall_time_watcher,
    wall_watcher_result, check_syscall, sys, emit, bind, ret, panic; cbn -[Z.ltb].
  destruct (kernel (trace s ++ [Sleep limit])%list (SendSignal child_pid SIGKILL) <? 0);
    cbn; rewrite <- ?app_assoc; repeat split; reflexivity.
Qed.

(** ** [SeccompFilter::filter] *)

Lemma append_nil_r_string : forall s, s ++ "" = s.
Proof. induction s as [|c s IH]; simpl; [reflexivity | rewrite IH; reflexivity]. Qed.

(** C6 (as amended). A syscall name holding a NUL byte makes [filter]
    panic (the [CString::new(name).unwrap()]) before any library call.
    For a syscall name without NUL byte: when the name
    does not resolve, [filter] fails with a message containing
    "unknown system call: <name>" and leaves the filter context as it was;
    when it resolves to [num], [filter] calls [seccomp_rule_add] with
    [to_seccomp_param(action)] (Allow -> SCMP_ACT_ALLOW, Kill ->
    SCMP_ACT_KILL, Errno(n) -> SCMP_ACT_ERRNO(n)) and [num], and succeeds
    exactly when that call returns a non-negative code, failing with
    "Error calling seccomp_rule_add(): ..." otherwise. *)
Theorem C6_filter :
  forall (resolve : string -> Z) (rule_add : scmp_ctx -> Z -> Z -> Z * scmp_ctx)
         (strerror : string) ctx name action,
    (has_nul name = true ->
       SeccompFilter_filter resolve rule_add strerror ctx name action =
         (Panic "called `Result::unwrap()` on an `Err` value", ctx)) /\
    (has_nul name = false ->
    (resolve name = NR_SCMP_ERROR ->
       exists msg, SeccompFilter_filter resolve rule_add strerror ctx name action = (Err msg, ctx)
                   /\ contains msg ("unknown system call: " ++ name)) /\
    (forall num rc ctx', resolve name = num -> num <> NR_SCMP_ERROR ->
       rule_add ctx (to_seccomp_param action) num = (rc, ctx') ->
       SeccompFilter_filter resolve rule_add strerror ctx name action =
         (if rc <? 0 then Err ("Error calling seccomp_rule_add(): " ++ strerror) else Ok tt, ctx')) /\
    to_seccomp_param Allow = SCMP_ACT_ALLOW /\
    to_seccomp_param Kill = SCMP_ACT_KILL /\
    (forall n, to_seccomp_param (Errno n) = SCMP_ACT_ERRNO n)).
Proof.
  intros resolve rule_add strerror ctx name action.
  unfold SeccompFilter_filter.
  split; [intros Hnul; rewrite Hnul; reflexivity|]. intros Hnul. rewrite Hnul.
  split; [|split; [|repeat split]].
  - intros Hres. rewrite Hres. simpl.
    eexists. split; [reflexivity|].
    exists "Error calling seccomp_syscall_resolve_name: ", "".
    rewrite append_nil_r_string. reflexivity.
  - intros num rc ctx' Hres Hnum Hadd. subst num.
    apply Z.eqb_neq in Hnum. rewrite Hnum, Hadd.
    destruct (rc <? 0); reflexivity.
Qed.

Definition allow_ctx : scmp_ctx := {| ctx_default := SCMP_ACT_ALLOW; ctx_rules := [] |}.

Lemma C6_witness :
  SeccompFilter_filter x86_64_resolve_name libseccomp_rule_add "Permission denied"
    allow_ctx "fork" Kill =
    (Ok tt, {| ctx_default := SCMP_ACT_ALLOW; ctx_rules := [(SCMP_ACT_KILL, 57)] |}) /\
  (exists msg, SeccompFilter_filter x86_64_resolve_name libseccomp_rule_add
                 "Permission denied" allow_ctx "frok" Kill = (Err msg, allow_ctx)
               /\ contains msg ("unknown system call: " ++ "frok")) /\
  SeccompFilter_filter x86_64_resolve_name libseccomp_rule_add "Permission denied"
    allow_ctx (String "000"%char "fork") Kill =
    (Panic "called `Result::unwrap()` on an `Err` value", allow_ctx).
Proof.
  destruct (proj2 (C6_filter x86_64_resolve_name libseccomp_rule_add "Permission denied"
              allow_ctx "fork" Kill) eq_refl) as (_ & Hok & _).
  destruct (proj2 (C6_filter x86_64_resolve_name libseccomp_rule_add "Permission denied"
              allow_ctx "frok" Kill) eq_refl) as (Hunknown & _).
  split; [|split; [|exact (proj1 (C6_filter x86_64_resolve_name libseccomp_rule_add
                                   "Permission denied" allow_ctx (String "000"%char "fork") Kill)
                                 eq_refl)]].
  - rewrite (Hok 57 0 {| ctx_default := SCMP_ACT_ALLOW; ctx_rules := [(SCMP_ACT_KILL, 57)] |}
               eq_refl ltac:(discriminate) eq_refl).
    reflexivity.
  - apply Hunknown. reflexivity.
Defined.

(** C6 counterexample: in a filter whose default action is Allow, the rule
    ("read", Allow) names a syscall that resolves (0), yet [filter] fails:
    libseccomp refuses a rule whose action is the default action, and
    [filter] turns the negative code into an error; no rule is appended. *)
Lemma C6_counterexample :
  x86_64_resolve_name "read" = 0 /\
  SeccompFilter_filter x86_64_resolve_name libseccomp_rule_add "Permission denied"
    allow_ctx "read" Allow =
    (Err "Error calling seccomp_rule_add(): Permission denied", allow_ctx).
Proof. split; reflexivity. Qed.

(** ** Signal names *)

(** C9. [signal_name] is [None] for every [ExitCode(_)] and for [Killed];
    for [Signal(n)] it is the system's name of [n] ([util::strsignal]:
    [None] when that name is empty or off Unix). Hence a [Some] answer
    comes only from a [Signal] status. *)
Theorem C9_signal_name :
  forall (libc_strsignal : Z -> string) (cfg_unix : bool),
    (forall code, signal_name libc_strsignal cfg_unix (ExitCode code) = None) /\
    signal_name libc_strsignal cfg_unix Killed = None /\
    (forall n, signal_name libc_strsignal cfg_unix (Signal n) =
                 if cfg_unix && negb (String.eqb (libc_strsignal n) "")
                 then Some (libc_strsignal n) else None) /\
    (forall s name, signal_name libc_strsignal cfg_unix s = Some name ->
       exists n, s = Signal n /\ name = libc_strsignal n).
Proof.
  intros libc_strsignal cfg_unix.
  split; [reflexivity|]. split; [reflexivity|].
  split.
  - intros n. unfold signal_name, strsignal.
    destruct cfg_unix, (String.eqb (libc_strsignal n) ""); reflexivity.
  - intros [code|n|] name H; try discriminate.
    exists n. split; [reflexivity|].
    unfold signal_name, strsignal in H.
    destruct cfg_unix; [|discriminate].
    destruct (String.eqb (libc_strsignal n) ""); [discriminate|].
    injection H as H. symmetry. exact H.
Qed.

(** glibc's descriptions of a few signals. *)
Definition glibc_strsignal (n : Z) : string :=
  match n with
  | 9 => "Killed"
  | 11 => "Segmentation fault"
  | 31 => "Bad system call"
  | _ => "Unknown signal"
  end.

Lemma C9_witness :
  signal_name glibc_strsignal true (Signal 11) = Some "Segmentation fault" /\
  (exists n, Signal 31 = Signal n /\ "Bad system call" = glibc_strsignal n).
Proof.
  destruct (C9_signal_name glibc_strsignal true) as (_ & _ & Hsig & Hsome).
  split.
  - rewrite Hsig. reflexivity.
  - apply (Hsome (Signal 31) "Bad system call"). reflexivity.
Defined.

(** ** Resource limits *)

(** The sibling [util::set_resource_limit] caps the request at the hard
    limit read by [getrlimit], so its [setrlimit] always succeeds. *)
Lemma util_set_resource_limit_clamps :
  forall resource limit s,
    let hard := snd (rlimits s resource) in
    fst (util_set_resource_limit resource limit s) = Ok tt /\
    rlimits (snd (util_set_resource_limit resource limit s)) resource =
      (Z.min limit hard, Z.min limit hard) /\
    trace (snd (util_set_resource_limit resource limit s)) =
      (trace s ++ [Getrlimit resource; Setrlimit resource (Z.min limit hard) (Z.min limit hard)])%list.
Proof.
  intros resource limit s hard.
  unfold util_set_resource_limit, sys_getrlimit, sys_setrlimit, bind, ret, fail; simpl.
  fold hard.
  assert (Hmin : (if limit <? hard then limit else hard) = Z.min limit hard).
  { destruct (Z.ltb_spec limit hard); lia. }
  rewrite Hmin.
  rewrite Z.leb_refl, (proj2 (Z.leb_le (Z.min limit hard) hard) (Z.le_min_r _ _)).
  simpl. rewrite Z.eqb_refl, <- app_assoc.
  repeat split; reflexivity.
Qed.

(** A process whose inherited hard limit on the address space is 4 GiB. *)
Definition kstate_as_4g : kstate :=
  {| rlimits := fun r => if r =? RLIMIT_AS then (4294967296, 4294967296)
                         else (RLIM_INFINITY, RLIM_INFINITY);
     trace := [] |}.

Definition config_mem_8g : SandboxConfiguration :=
  set_memory_limit 8000000000 SandboxConfiguration_default.

(** C5 (code bug, evaluated at the failing input). With a memory limit of
    8e9 bytes and an inherited RLIMIT_AS hard limit of 4 GiB, the Linux
    child never reads the current limit: it asks [setrlimit] for 8e9 as
    soft and hard limit, the kernel refuses to raise the hard limit, and
    [check_syscall!] panics. The sibling [util::setup_resource_limits]
    clamps the same request to 4 GiB and succeeds. *)
Theorem C5_linux_rlimit_not_clamped :
  fst (linux_setup_resource_limits config_mem_8g kstate_as_4g) =
    Panic "set_resource_limit(RLIMIT_AS, memory_limit) failed" /\
  trace (snd (linux_setup_resource_limits config_mem_8g kstate_as_4g)) =
    [Setrlimit RLIMIT_AS 8000000000 8000000000] /\
  fst (util_setup_resource_limits config_mem_8g kstate_as_4g) = Ok tt /\
  rlimits (snd (util_setup_resource_limits config_mem_8g kstate_as_4g)) RLIMIT_AS =
    (4294967296, 4294967296).
Proof. repeat split; vm_compute; reflexivity. Qed.

(** ** JSON round trip *)

Definition floats_finite (r : SandboxExecutionResult) : bool :=
  f64_is_finite r.(resource_usage).(user_cpu_time) &&
  f64_is_finite r.(resource_usage).(system_cpu_time) &&
  f64_is_finite r.(resource_usage).(wall_time_usage).

(** The result with each [f64] field read back through [parse_f64]. *)
Definition map_floats (parse_f64 : f64 -> f64) (r : SandboxExecutionResult)
  : SandboxExecutionResult :=
  {| status := r.(status);
     resource_usage :=
       {| memory_usage := r.(resource_usage).(memory_usage);
          user_cpu_time := parse_f64 r.(resource_usage).(user_cpu_time);
          system_cpu_time := parse_f64 r.(resource_usage).(system_cpu_time);
          wall_time_usage := parse_f64 r.(resource_usage).(wall_time_usage) |} |}.

(** C7 (as amended). For every result (integers within their Rust types):
    when its three [f64] fields are finite, deserializing its JSON gives
    back the same status (variant and payload) and [memory_usage], and
    each [f64] field as serde_json's float parser reads back the printed
    value, so the result itself whenever that parser reads floats back
    exactly; when one [f64] field is NaN or infinite, it is written as
    [null] and deserialization fails. *)
Theorem C7_json_round_trip :
  forall (parse_f64 : f64 -> f64) (int_to_f64 : Z -> f64) r,
    wf_result r = true ->
    (floats_finite r = true ->
       de_SandboxExecutionResult parse_f64 int_to_f64 (ser_SandboxExecutionResult r) =
         Ok (map_floats parse_f64 r)) /\
    (floats_finite r = false ->
       de_SandboxExecutionResult parse_f64 int_to_f64 (ser_SandboxExecutionResult r) =
         Err "invalid type: null, expected f64").
Proof.
  intros parse_f64 int_to_f64 [st [m u sy w]] Hwf.
  unfold wf_result in Hwf; simpl in Hwf.
  apply andb_prop in Hwf as [Hst Hm].
  unfold floats_finite, map_floats; simpl.
  assert (Hstatus : de_ExitStatus (ser_ExitStatus st) = Ok st).
  { destruct st as [c|n|]; simpl in *; try rewrite Hst; reflexivity. }
  split.
  - intros Hfin. apply andb_prop in Hfin as [Hfin Hw].
    apply andb_prop in Hfin as [Hu Hsy].
    unfold ser_f64. rewrite Hu, Hsy, Hw. simpl.
    rewrite Hstatus. simpl. rewrite Hm. reflexivity.
  - intros Hnf. simpl. rewrite Hstatus. simpl. rewrite Hm. simpl.
    unfold ser_f64.
    destruct (f64_is_finite u); simpl in *; [|reflexivity].
    destruct (f64_is_finite sy); simpl in *; [|reflexivity].
    rewrite Hnf. reflexivity.
Qed.

(** One second of user time, half a second of system time, exit code 0. *)
Definition result_finite : SandboxExecutionResult :=
  {| status := ExitCode 0;
     resource_usage := {| memory_usage := 1048576;
                          user_cpu_time := S754_finite false 1 0;
                          system_cpu_time := S754_finite false 1 (-1);
                          wall_time_usage := S754_zero false |} |}.

Lemma C7_witness :
  de_SandboxExecutionResult (fun f => f) (fun _ => S754_zero false)
    (ser_SandboxExecutionResult result_finite) = Ok result_finite.
Proof.
  destruct (C7_json_round_trip (fun f => f) (fun _ => S754_zero false) result_finite
              eq_refl) as [Hfin _].
  exact (Hfin eq_refl).
Defined.

Definition result_nan : SandboxExecutionResult :=
  {| status := ExitCode 0;
     resource_usage := {| memory_usage := 0;
                          user_cpu_time := S754_nan;
                          system_cpu_time := S754_zero false;
                          wall_time_usage := S754_zero false |} |}.

(** C7 counterexample: a result whose user CPU time is NaN serializes that
    field as [null], which does not deserialize as an [f64]. *)
Lemma C7_counterexample :
  ser_ResourceUsage (resource_usage result_nan) =
    JObject [("memory_usage", JInt 0); ("user_cpu_time", JNull);
             ("system_cpu_time", JFloat (S754_zero false));
             ("wall_time_usage", JFloat (S754_zero false))] /\
  de_SandboxExecutionResult (fun f => f) (fun _ => S754_zero false)
    (ser_SandboxExecutionResult result_nan) = Err "invalid type: null, expected f64".
Proof. split; reflexivity. Qed.

(** ** The command line front-end *)

(** The rules [SyscallFilter::build] installs, by flag. *)
Definition preset_rules (multiprocess chmod : bool) : list (string * SyscallFilterAction) :=
  ((if multiprocess then [] else [("fork", Kill); ("vfork", Kill); ("clone", Kill)]) ++
   (if chmod then [] else [("chmod", Kill); ("fchmod", Kill); ("fchmodat", Kill)]))%list.

Ltac main_cases :=
  repeat match goal with
  | |- context [if ?b then _ else _] => destruct b
  | |- context [add_env ?g ?c ?l] => destruct (add_env g c l)
  | |- context [add_mounts ?c ?l] => destruct (add_mounts c l)
  | |- context [match ?sb ?c with RunFailed _ => _ | WaitFailed _ => _
                                 | WaitPanicked _ => _ | Finished _ => _ end] =>
      let E := fresh "E" in destruct (sb c) eqn:E
  end.

(** C8. Whenever [main] hands a configuration to the sandbox, that
    configuration carries the preset filter: default action Allow, Kill
    rules for fork, vfork and clone exactly when --allow-multiprocess is
    absent, then Kill rules for chmod, fchmod and fchmodat exactly when
    --allow-chmod is absent, and no other rule. *)
Theorem C8_cli_preset_filter :
  forall is_secure getenv sandbox json_to_string debug_fmt (a : Args) config,
    ran_with (tabox_main is_secure getenv sandbox json_to_string debug_fmt a) = Some config ->
    syscall_filter config =
      Some {| default_action := Allow;
              rules := preset_rules (a_allow_multiprocess a) (a_allow_chmod a) |}.
Proof.
  intros is_secure getenv sandbox json_to_string debug_fmt a config H.
  unfold tabox_main in H.
  revert H. main_cases; simpl; intros H; try discriminate;
    injection H as <-; simpl; unfold SyscallFilter_build, preset_rules;
    destruct (a_allow_multiprocess a), (a_allow_chmod a); reflexivity.
Qed.

Definition args_example : Args := {|
  a_time_limit := Some 1; a_memory_limit := Some 256; a_executable := "/bin/true";
  a_args := ["x"]; a_env := ["HOME=/"]; a_mount := ["/usr"; "/tmp/w,rw"];
  a_working_directory := None; a_allow_chmod := true; a_allow_multiprocess := false;
  a_stdin := None; a_stdout := None; a_stderr := None; a_allow_insecure := false;
  a_json := true; a_mount_tmpfs := true; a_wall_limit := Some 2; a_cpu_core := None;
  a_uid := 0; a_gid := 0; a_mount_proc := false |}.

Definition finished_ok (_ : SandboxConfiguration) : sandbox_answer := Finished result_finite.

Lemma C8_witness :
  exists config,
    ran_with (tabox_main true (fun _ => None) finished_ok (fun _ => "{}")
                (fun _ => "result") args_example) = Some config /\
    syscall_filter config =
      Some {| default_action := Allow;
              rules := [("fork", Kill); ("vfork", Kill); ("clone", Kill)] |}.
Proof.
  eexists. split; [reflexivity|].
  exact (C8_cli_preset_filter true (fun _ => None) finished_ok (fun _ => "{}")
           (fun _ => "result") args_example _ eq_refl).
Defined.

(** C10. Every line [main] prints goes to standard error; when [main]
    returns [Ok] after a finished sandbox run, its only output is the
    result record on standard error: the JSON text under --json, the
    debug formatting otherwise. *)
Theorem C10_result_on_stderr :
  forall is_secure getenv sandbox json_to_string debug_fmt (a : Args),
    let run := tabox_main is_secure getenv sandbox json_to_string debug_fmt a in
    Forall (fun w => fst w = Stderr) (writes run) /\
    (exit_ run = ReturnOk ->
       exists config result,
         ran_with run = Some config /\ sandbox config = Finished result /\
         writes run =
           [(Stderr, (if a_json a
                      then json_to_string (ser_SandboxExecutionResult result)
                      else debug_fmt result) ++ newline)]).
Proof.
  intros is_secure getenv sandbox json_to_string debug_fmt a run.
  subst run. unfold tabox_main.
  main_cases; simpl;
    (split; [repeat constructor | intros H; try discriminate]);
    eexists _, _; (split; [reflexivity | split; [eassumption | reflexivity]]).
Qed.

Lemma C10_witness :
  writes (tabox_main true (fun _ => None) finished_ok (fun _ => "{}")
            (fun _ => "result") args_example) = [(Stderr, "{}" ++ newline)].
Proof.
  destruct (C10_result_on_stderr true (fun _ => None) finished_ok (fun _ => "{}")
              (fun _ => "result") args_example) as [_ Hok].
  destruct (Hok eq_refl) as (config & result & _ & Hres & ->).
  unfold finished_ok in Hres. injection Hres as <-. reflexivity.
Defined.

(** ** Order of the child setup *)

(** Effect classes of the child setup steps. *)
Definition is_fs (e : effect) : bool :=
  match e with CreateDirAll _ | Mount _ _ _ _ _ | Mknod _ _ _ _ => true | _ => false end.
Definition is_rlimit (e : effect) : bool :=
  match e with Getrlimit _ | Setrlimit _ _ _ => true | _ => false end.
Definition is_filter_setup (e : effect) : bool :=
  match e with SeccompInit _ | SeccompRuleAdd _ _ => true | _ => false end.
Definition is_load (e : effect) : bool :=
  match e with SeccompLoad => true | _ => false end.
Definition is_io (e : effect) : bool :=
  match e with OpenRead _ | Create _ | Dup2 _ _ => true | _ => false end.
Definition is_affinity (e : effect) : bool :=
  match e with SchedSetaffinity _ => true | _ => false end.

(** [m] only appends effects of class [P] to the trace when it returns. *)
Definition extends (P : effect -> bool) {A} (m : M A) : Prop :=
  forall s a s', m s = (Ok a, s') ->
    exists l, trace s' = (trace s ++ l)%list /\ forallb P l = true.

Lemma extends_ret : forall P A (a : A), extends P (ret a).
Proof.
  intros P A a s a' s' H. injection H as _ <-.
  exists []. rewrite app_nil_r. split; reflexivity.
Qed.

Lemma extends_panic : forall P A msg, extends P (@panic A msg).
Proof. intros P A msg s a s' H. discriminate H. Qed.

Lemma extends_emit : forall (P : effect -> bool) e, P e = true -> extends P (emit e).
Proof.
  intros P e He s a s' H. injection H as _ <-.
  exists [e]. simpl. rewrite He. split; reflexivity.
Qed.

Lemma extends_sys : forall (P : effect -> bool) kernel e, P e = true -> extends P (sys kernel e).
Proof.
  intros P kernel e He s a s' H. injection H as _ <-.
  exists [e]. simpl. rewrite He. split; reflexivity.
Qed.

Lemma extends_bind : forall P A B (m : M A) (k : A -> M B),
  extends P m -> (forall a, extends P (k a)) -> extends P (bind m k).
Proof.
  intros P A B m k Hm Hk s b s'' H. unfold bind in H.
  destruct (m s) as [[a|e|e] s'] eqn:E; try discriminate.
  destruct (Hm s a s' E) as (l1 & Ht1 & Hl1).
  destruct (Hk a s' b s'' H) as (l2 & Ht2 & Hl2).
  exists (l1 ++ l2)%list. rewrite Ht2, Ht1, app_assoc.
  split; [reflexivity|]. rewrite forallb_app, Hl1, Hl2. reflexivity.
Qed.

Lemma extends_sys_setrlimit : forall (P : effect -> bool) res cur max,
  P (Setrlimit res cur max) = true -> extends P (sys_setrlimit res cur max).
Proof.
  intros P res cur max HP s a s' H. unfold sys_setrlimit in H.
  destruct ((cur <=? max) && (max <=? snd (rlimits s res)));
    injection H as _ <-; exists [Setrlimit res cur max]; simpl; rewrite HP; split; reflexivity.
Qed.

Lemma extends_mapM_ : forall P A (f : A -> M unit) l,
  (forall x, extends P (f x)) -> extends P (mapM_ f l).
Proof.
  intros P A f l Hf. induction l as [|x l IH]; simpl.
  - apply extends_ret.
  - apply extends_bind; [apply Hf | intros _; exact IH].
Qed.

Ltac extends_step :=
  match goal with
  | |- extends _ (bind _ _) => apply extends_bind; [|intros ?]
  | |- extends _ (ret _) => apply extends_ret
  | |- extends _ (panic _) => apply extends_panic
  | |- extends _ (emit _) => apply extends_emit; reflexivity
  | |- extends _ (sys _ _) => apply extends_sys; reflexivity
  | |- extends _ (unwrap_io _) => unfold unwrap_io
  | |- extends _ (sys_setrlimit _ _ _) => apply extends_sys_setrlimit; reflexivity
  | |- extends _ (mapM_ _ _) => apply extends_mapM_; intros ?
  | |- extends _ (check_syscall _ _) => unfold check_syscall
  | |- extends _ (linux_set_resource_limit _ _) => unfold linux_set_resource_limit
  | |- extends _ (mount _ _ _ _ _ _) => unfold mount
  | |- extends _ (make_dev _ _ _ _) => unfold make_dev
  | |- extends _ (mount_dir _ _ _) => unfold mount_dir
  | |- extends _ (match ?x with _ => _ end) => destruct x
  | |- extends _ (if ?b then _ else _) => destruct b
  end.

Lemma setup_filesystem_extends : forall kernel config sandbox_path,
  extends is_fs (setup_filesystem kernel config sandbox_path).
Proof. intros. unfold setup_filesystem. repeat extends_step. Qed.

Lemma linux_setup_resource_limits_extends : forall config,
  extends is_rlimit (linux_setup_resource_limits config).
Proof. intros. unfold linux_setup_resource_limits. repeat extends_step. Qed.

Lemma setup_io_redirection_extends : forall config,
  extends is_io (setup_io_redirection config).
Proof. intros. unfold setup_io_redirection. repeat extends_step. Qed.

Lemma setup_thread_affinity_extends : forall config,
  extends is_affinity (setup_thread_affinity config).
Proof. intros. unfold setup_thread_affinity. repeat extends_step. Qed.

Lemma extends_or : forall (P Q : effect -> bool) A (m : M A),
  extends P m -> extends (fun e => P e || Q e) m.
Proof.
  intros P Q A m H s a s' Hm. destruct (H s a s' Hm) as (l & Ht & Hl).
  exists l. split; [exact Ht|].
  rewrite forallb_forall in *. intros e He. rewrite (Hl e He). reflexivity.
Qed.

Lemma extends_or_r : forall (P Q : effect -> bool) A (m : M A),
  extends Q m -> extends (fun e => P e || Q e) m.
Proof.
  intros P Q A m H s a s' Hm. destruct (H s a s' Hm) as (l & Ht & Hl).
  exists l. split; [exact Ht|].
  rewrite forallb_forall in *. intros e He. rewrite (Hl e He), orb_true_r. reflexivity.
Qed.

Lemma bind_ok_inv : forall A B (m : M A) (k : A -> M B) s b s'',
  bind m k s = (Ok b, s'') -> exists a s', m s = (Ok a, s') /\ k a s' = (Ok b, s'').
Proof.
  intros A B m k s b s'' H. unfold bind in H.
  destruct (m s) as [[a|e|e] s'] eqn:E; try discriminate.
  exists a, s'. split; [reflexivity | exact H].
Qed.

(** With a filter configured, [setup_syscall_filter] appends the
    filter's set-up effects followed by one [SeccompLoad]. *)
Lemma setup_syscall_filter_trace : forall config f s s',
  syscall_filter config = Some f ->
  setup_syscall_filter config s = (Ok tt, s') ->
  exists l, trace s' = (trace s ++ l ++ [SeccompLoad])%list /\
            forallb is_filter_setup l = true.
Proof.
  intros config f s s' Hf H. unfold setup_syscall_filter in H. rewrite Hf in H.
  apply bind_ok_inv in H as (? & s1 & H1 & H).
  apply bind_ok_inv in H as (? & s2 & H2 & H).
  apply bind_ok_inv in H as (? & s3 & H3 & H).
  injection H as <-. injection H3 as _ <-. injection H1 as _ <-.
  assert (Hr : extends is_filter_setup
                 (mapM_ (fun '(syscall, action) =>
                           emit (SeccompRuleAdd (to_seccomp_param action) syscall) ;; ret tt)
                        (rules f))).
  { repeat extends_step. }
  destruct (Hr _ _ _ H2) as (l & Ht & Hl). simpl in Ht.
  exists (SeccompInit (to_seccomp_param (default_action f)) :: l)%list. simpl.
  rewrite Ht, <- !app_assoc. split; [reflexivity | exact Hl].
Qed.

Lemma enter_chroot_trace : forall config sandbox_path s,
  enter_chroot config sandbox_path s =
    (Ok tt, {| rlimits := rlimits s;
               trace := (trace s ++ [Chroot sandbox_path; Chdir (working_directory config)])%list |}).
Proof.
  intros. unfold enter_chroot, check_syscall, emit, bind, ret; simpl.
  rewrite <- app_assoc. reflexivity.
Qed.

Lemma exec_child_trace : forall config path_exists s s',
  exec_child config path_exists s = (Ok tt, s') ->
  trace s' = (trace s ++ [Execve (executable config) (executable config :: args config)
                 (map (fun '(variable, value) => (variable ++ "=" ++ value)%string) (env config))])%list.
Proof.
  intros config path_exists s s' H. unfold exec_child in H.
  destruct (negb (path_exists (executable config))); [discriminate|].
  unfold check_syscall, emit, bind, ret in H; simpl in H.
  injection H as <-. reflexivity.
Qed.

Lemma forallb_weaken : forall (P Q : effect -> bool) l,
  forallb P l = true -> (forall e, P e = true -> Q e = true) -> forallb Q l = true.
Proof.
  intros P Q l H HPQ. rewrite forallb_forall in *. intros e He. apply HPQ, H, He.
Qed.

(** C2 (as amended). For every configuration with a syscall filter whose
    child setup reaches [execve] (whatever the kernel answers to the
    filesystem calls), the child's effects are: filesystem
    assembly, resource limits and the filter's rules ([pre]), the filter
    load, then stdio redirection and CPU pinning ([mid]), then the chroot
    into the sandbox root, the change to the working directory and
    [execve]. The filter is loaded after filesystem assembly and the
    resource limits, and before the chroot and the change of directory. *)
Theorem C2_filter_before_chroot :
  forall kernel config f sandbox_path path_exists s0 s1,
    syscall_filter config = Some f ->
    child kernel config sandbox_path path_exists s0 = (Ok tt, s1) ->
    exists pre mid argv envp,
      trace s1 = (trace s0 ++ pre ++ SeccompLoad ::
                  mid ++ [Chroot sandbox_path; Chdir (working_directory config);
                          Execve (executable config) argv envp])%list /\
      forallb (fun e => is_fs e || is_rlimit e || is_filter_setup e) pre = true /\
      forallb (fun e => is_io e || is_affinity e) mid = true.
Proof.
  intros kernel config f sandbox_path path_exists s0 s1 Hf H. unfold child in H.
  apply bind_ok_inv in H as ([] & sa & Hfs & H).
  apply bind_ok_inv in H as ([] & sb & Hrl & H).
  apply bind_ok_inv in H as ([] & sc & Hsf & H).
  apply bind_ok_inv in H as ([] & sd & Hio & H).
  apply bind_ok_inv in H as ([] & se & Haff & H).
  apply bind_ok_inv in H as ([] & sg & Hch & Hex).
  destruct (setup_filesystem_extends kernel config sandbox_path _ _ _ Hfs) as (l1 & T1 & F1).
  destruct (linux_setup_resource_limits_extends config _ _ _ Hrl) as (l2 & T2 & F2).
  destruct (setup_syscall_filter_trace config f _ _ Hf Hsf) as (l3 & T3 & F3).
  destruct (setup_io_redirection_extends config _ _ _ Hio) as (l4 & T4 & F4).
  destruct (setup_thread_affinity_extends config _ _ _ Haff) as (l5 & T5 & F5).
  rewrite enter_chroot_trace in Hch. injection Hch as <-.
  apply exec_child_trace in Hex.
  exists (l1 ++ l2 ++ l3)%list, (l4 ++ l5)%list, (executable config :: args config),
    (map (fun '(variable, value) => (variable ++ "=" ++ value)%string) (env config)).
  split; [|split].
  - rewrite Hex; simpl. rewrite T5, T4, T3, T2, T1.
    repeat (rewrite <- app_assoc; simpl). reflexivity.
  - rewrite !forallb_app.
    repeat (apply andb_true_intro; split);
      (eapply forallb_weaken; [eassumption | intros e He; rewrite He, ?orb_true_r; reflexivity]).
  - rewrite forallb_app.
    apply andb_true_intro; split;
      (eapply forallb_weaken; [eassumption | intros e He; rewrite He, ?orb_true_r; reflexivity]).
Qed.

Lemma C2_witness :
  child kernel_accepts config_cli_filter "/tmp/tabox" (fun _ => true) kstate0 =
    (Ok tt, snd (child kernel_accepts config_cli_filter "/tmp/tabox" (fun _ => true) kstate0)) /\
  exists pre mid argv envp,
    trace (snd (child kernel_accepts config_cli_filter "/tmp/tabox" (fun _ => true) kstate0)) =
      (trace kstate0 ++ pre ++ SeccompLoad :: mid ++
       [Chroot "/tmp/tabox"; Chdir (working_directory config_cli_filter);
        Execve (executable config_cli_filter) argv envp])%list /\
    forallb (fun e => is_fs e || is_rlimit e || is_filter_setup e) pre = true /\
    forallb (fun e => is_io e || is_affinity e) mid = true.
Proof.
  split; [vm_compute; reflexivity |].
  exact (C2_filter_before_chroot kernel_accepts config_cli_filter (SyscallFilter_build false false)
           "/tmp/tabox" (fun _ => true) kstate0
           (snd (child kernel_accepts config_cli_filter "/tmp/tabox" (fun _ => true) kstate0))
           eq_refl ltac:(vm_compute; reflexivity)).
Defined.

(** C2 counterexample: with the command line's preset filter, the child
    loads the filter once, as its 18th effect, and only then issues the
    chroot into the sandbox root, the change of directory and [execve]:
    the filter is not loaded after the chroot, and [execve] is not the
    only effect after it. *)
Lemma C2_counterexample :
  let r := child kernel_accepts config_cli_filter "/tmp/tabox" (fun _ => true) kstate0 in
  fst r = Ok tt /\
  List.filter is_load (trace (snd r)) = [SeccompLoad] /\
  skipn 17 (trace (snd r)) =
    [SeccompLoad; Chroot "/tmp/tabox"; Chdir "/"; Execve "/bin/sh" ["/bin/sh"] []].
Proof. vm_compute. repeat split; reflexivity. Qed.

(* ================================================================== *)
(** * Further properties of the code *)

(** ** Wait statuses *)

Lemma land_low16 : forall a m, 0 <= m < 65536 -> Z.land a m = Z.land (a mod 65536) m.
Proof.
  intros a m Hm. apply Z.bits_inj'. intros i Hi.
  rewrite !Z.land_spec.
  change 65536 with (2 ^ 16).
  destruct (Z.lt_ge_cases i 16) as [Hlt | Hge].
  - rewrite Z.mod_pow2_bits_low by lia. reflexivity.
  - rewrite <- (Z.mod_small m (2 ^ 16)) by (simpl; lia).
    rewrite !(Z.mod_pow2_bits_high m 16 i) by lia.
    rewrite !andb_false_r. reflexivity.
Qed.

Lemma zseq_spec : forall n z x, z <= x < z + Z.of_nat n -> In x (zseq z n).
Proof.
  induction n as [|n IH]; intros z x Hx; simpl; [lia|].
  destruct (Z.eq_dec z x) as [<-|Hne]; [left; reflexivity|].
  right. apply IH. lia.
Qed.

Lemma low16_check : forall (f : Z -> bool),
  forallb f low16_range = true -> forall x, 0 <= x < 65536 -> f x = true.
Proof.
  intros f H x Hx. rewrite forallb_forall in H. apply H, zseq_spec.
  rewrite Z2Nat.id; lia.
Qed.

(** The wait macros read only the low 16 bits of the status. *)
Lemma wait_macros_low16 : forall st,
  WIFEXITED st = WIFEXITED (st mod 65536) /\
  WEXITSTATUS st = WEXITSTATUS (st mod 65536) /\
  WTERMSIG st = WTERMSIG (st mod 65536) /\
  WIFSIGNALED st = WIFSIGNALED (st mod 65536).
Proof.
  intros st. unfold WIFEXITED, WEXITSTATUS, WTERMSIG, WIFSIGNALED.
  rewrite (land_low16 st 127), (land_low16 st 65280) by lia.
  rewrite (land_low16 (st mod 65536) 127), (land_low16 (st mod 65536) 65280) by lia.
  rewrite !Zmod_mod. repeat split.
Qed.

Lemma mod16_range : forall st, 0 <= st mod 65536 < 65536.
Proof. intros. apply Z.mod_pos_bound. lia. Qed.

(** Prove [f st = true] for every status from the 65536 low-16-bit
    cases, once [f] is seen to read only the wait macros. *)
Ltac by_low16 f st :=
  let H := fresh "H" in
  assert (H : f st = f (st mod 65536))
    by (unfold f, util_wait_status, linux_exit_status, classified;
        destruct (wait_macros_low16 st) as (-> & -> & -> & ->); reflexivity);
  rewrite H; apply low16_check; [vm_compute; reflexivity | apply mod16_range].

Definition wait_ranges_ok (st : Z) : bool :=
  match util_wait_status st with
  | Ok (ExitCode c) => (0 <=? c) && (c <=? 255)
  | Ok (Signal n) => (1 <=? n) && (n <=? 126)
  | Err _ => negb (classified st)
  | _ => false
  end &&
  match linux_exit_status false st with
  | ExitCode c => (0 <=? c) && (c <=? 255)
  | Signal n => (1 <=? n) && (n <=? 127)
  | Killed => false
  end.

(** For every wait status, [util::wait] reports an exit code in 0..255,
    a signal in 1..126, or its "unknown status" error exactly on a status
    that is neither an exit nor a signal termination; the Linux
    supervisor (flag clear) reports an exit code in 0..255 or a signal in
    1..127. *)
Theorem wait_status_ranges : forall st,
  match util_wait_status st with
  | Ok (ExitCode c) => 0 <= c <= 255
  | Ok (Signal n) => 1 <= n <= 126
  | Err _ => classified st = false
  | _ => False
  end /\
  match linux_exit_status false st with
  | ExitCode c => 0 <= c <= 255
  | Signal n => 1 <= n <= 127
  | Killed => False
  end.
Proof.
  intros st.
  assert (H : wait_ranges_ok st = true) by by_low16 wait_ranges_ok st.
  unfold wait_ranges_ok in H. apply andb_prop in H as [H1 H2].
  split.
  - destruct (util_wait_status st) as [[c|n|]|e|e]; try discriminate.
    + apply andb_prop in H1 as [Ha Hb]. apply Z.leb_le in Ha, Hb. lia.
    + apply andb_prop in H1 as [Ha Hb]. apply Z.leb_le in Ha, Hb. lia.
    + apply negb_true_iff in H1. exact H1.
  - destruct (linux_exit_status false st) as [c|n|]; try discriminate;
      apply andb_prop in H2 as [Ha Hb]; apply Z.leb_le in Ha, Hb; lia.
Qed.

Definition success_ok (st : Z) : bool :=
  Bool.eqb (ExitStatus_success (linux_exit_status false st)) ((st =? 0) || (st =? 128)) &&
  Bool.eqb (match util_wait_status st with Ok (ExitCode 0) => true | _ => false end) ((st =? 0) || (st =? 128)).

(** A run counts as a success ([ExitStatus::success]) exactly when the
    killed flag is clear and the low 16 bits of the wait status are 0
    (or 0x80: the core-dump bit alone, which the macros read as exit
    code 0); [util::wait] reports [ExitCode(0)] exactly on those statuses. *)
Theorem success_iff_status_low_bits_zero : forall killed st,
  (ExitStatus_success (linux_exit_status killed st) = true <->
     killed = false /\ (st mod 65536 = 0 \/ st mod 65536 = 128)) /\
  (util_wait_status st = Ok (ExitCode 0) <-> st mod 65536 = 0 \/ st mod 65536 = 128).
Proof.
  intros killed st.
  assert (Hred : ExitStatus_success (linux_exit_status false st) =
                   ExitStatus_success (linux_exit_status false (st mod 65536)) /\
                 util_wait_status st = util_wait_status (st mod 65536)).
  { unfold linux_exit_status, util_wait_status.
    destruct (wait_macros_low16 st) as (-> & -> & -> & ->). split; reflexivity. }
  assert (Hchk : success_ok (st mod 65536) = true)
    by (apply (low16_check success_ok); [vm_compute; reflexivity | apply mod16_range]).
  unfold success_ok in Hchk. apply andb_prop in Hchk as [H1 H2].
  apply Bool.eqb_prop in H1, H2. destruct Hred as [Hs Hu].
  split.
  - destruct killed.
    + simpl. split; [discriminate | intros [H _]; discriminate].
    + rewrite Hs, H1, orb_true_iff, !Z.eqb_eq. intuition.
  - rewrite Hu. split.
    + intros Hok. rewrite Hok in H2. symmetry in H2.
      apply orb_true_iff in H2. rewrite !Z.eqb_eq in H2. exact H2.
    + intros Hz. destruct Hz as [Hz|Hz]; rewrite Hz in H2 |- *; reflexivity.
Qed.

(** The three status translations agree: the degraded backend's [wait]
    gives the Linux supervisor's status whenever the killed flag is set or
    the status is an exit or a signal termination, and panics
    ([unreachable!()]) otherwise; [util::wait] gives the supervisor's
    status (flag clear) on exits and signal terminations, and its
    "unknown status" error otherwise. *)
Theorem exit_status_backends_agree : forall killed st,
  macos_exit_status killed st =
    (if killed || classified st then Ok (linux_exit_status killed st)
     else Panic "internal error: entered unreachable code") /\
  util_wait_status st =
    (if classified st then Ok (linux_exit_status false st)
     else Err "Child terminated with unknown status").
Proof.
  intros killed st.
  unfold macos_exit_status, util_wait_status, linux_exit_status, classified,
    std_code, std_signal.
  destruct killed; [split; [reflexivity|] | ];
    destruct (WIFEXITED st), (WIFSIGNALED st); split; reflexivity.
Qed.

(** ** Seccomp actions and the rule loop *)

Definition errno_param_ok (x : Z) : bool := Z.lor 327680 x =? 327680 + x.

Lemma errno_param_add : forall n, SCMP_ACT_ERRNO n = 327680 + n mod 65536.
Proof.
  intros n. unfold SCMP_ACT_ERRNO.
  change 65535 with (Z.ones 16). rewrite (Z.land_ones n 16) by lia.
  change (2 ^ 16) with 65536.
  apply Z.eqb_eq. apply (low16_check errno_param_ok);
    [vm_compute; reflexivity | apply mod16_range].
Qed.

(** Only the low 16 bits of an [Errno(n)] action reach the filter:
    [Errno(n)] and [Errno(m)] install the same seccomp action exactly when
    [n] and [m] agree modulo 65536, and no [Errno] action coincides with
    [Allow] or [Kill]. *)
Theorem to_seccomp_param_errno : forall n m,
  (to_seccomp_param (Errno n) = to_seccomp_param (Errno m) <-> n mod 65536 = m mod 65536) /\
  to_seccomp_param (Errno n) <> to_seccomp_param Allow /\
  to_seccomp_param (Errno n) <> to_seccomp_param Kill.
Proof.
  intros n m. simpl. rewrite !errno_param_add.
  pose proof (mod16_range n). pose proof (mod16_range m).
  unfold SCMP_ACT_ALLOW, SCMP_ACT_KILL.
  repeat split; intros; lia.
Qed.

Lemma filter_rules_cons : forall resolve rule_add strerror ctx name action rest,
  filter_rules resolve rule_add strerror ctx ((name, action) :: rest) =
  match SeccompFilter_filter resolve rule_add strerror ctx name action with
  | (Panic e, ctx') => ([Panic e], ctx')
  | (r, ctx') => let '(rs, ctx'') := filter_rules resolve rule_add strerror ctx' rest in
                 (r :: rs, ctx'')
  end.
Proof. reflexivity. Qed.

Lemma filter_step : forall resolve strerror ctx name action,
  has_nul name = false ->
  SeccompFilter_filter resolve libseccomp_rule_add strerror ctx name action =
  if resolve name =? NR_SCMP_ERROR
  then (Err ("Error calling seccomp_syscall_resolve_name: unknown system call: " ++ name), ctx)
  else if to_seccomp_param action =? ctx_default ctx
  then (Err ("Error calling seccomp_rule_add(): " ++ strerror), ctx)
  else if existsb (Z.eqb (resolve name)) (map snd (ctx_rules ctx))
  then (Err ("Error calling seccomp_rule_add(): " ++ strerror), ctx)
  else (Ok tt, {| ctx_default := ctx_default ctx;
                  ctx_rules := (ctx_rules ctx ++ [(to_seccomp_param action, resolve name)])%list |}).
Proof.
  intros resolve strerror ctx name action Hn.
  unfold SeccompFilter_filter, libseccomp_rule_add. rewrite Hn.
  destruct (resolve name =? NR_SCMP_ERROR); [reflexivity|].
  destruct (to_seccomp_param action =? ctx_default ctx); [reflexivity|].
  destruct (existsb (Z.eqb (resolve name)) (map snd (ctx_rules ctx))); reflexivity.
Qed.

Lemma distinct_app_cons : forall l x r,
  distinct (l ++ x :: r) = true -> existsb (Z.eqb x) l = false.
Proof.
  induction l as [|a l IH]; intros x r H; [reflexivity|].
  cbn [app distinct] in H. apply andb_prop in H as [H1 H2].
  apply negb_true_iff in H1. rewrite existsb_app in H1. cbn [existsb] in H1.
  apply orb_false_iff in H1 as [_ H1]. apply orb_false_iff in H1 as [H1 _].
  cbn [existsb]. rewrite Z.eqb_sym, H1. exact (IH x r H2).
Qed.

(** The rule loop of [setup_syscall_filter] against libseccomp: for rules
    whose names hold no NUL byte, and whose kept rules name syscalls that
    are pairwise distinct and have no rule in the context yet, every rule
    gets one result, the default action stays, and the rules that end up
    in the filter are exactly the rules whose name resolves and whose
    action differs from the default action, in order; the other rules
    fail and are skipped without stopping the loop. *)
Theorem filter_rules_skips_failures :
  forall resolve strerror ctx rules,
    forallb (fun r => negb (has_nul (fst r))) rules = true ->
    let kept := filter (fun r => negb (resolve (fst r) =? NR_SCMP_ERROR) &&
                                 negb (to_seccomp_param (snd r) =? ctx_default ctx)) rules in
    distinct (map snd (ctx_rules ctx) ++ map (fun r => resolve (fst r)) kept) = true ->
    let res := filter_rules resolve libseccomp_rule_add strerror ctx rules in
    length (fst res) = length rules /\
    ctx_default (snd res) = ctx_default ctx /\
    ctx_rules (snd res) =
      (ctx_rules ctx ++ map (fun r => (to_seccomp_param (snd r), resolve (fst r))) kept)%list.
Proof.
  intros resolve strerror ctx rules. revert ctx.
  induction rules as [|[name action] rest IH]; intros ctx Hnul kept Hdist.
  - simpl. rewrite app_nil_r. repeat split.
  - simpl in Hnul. apply andb_prop in Hnul as [Hn Hrest].
    apply negb_true_iff in Hn. subst kept.
    rewrite filter_rules_cons, (filter_step resolve strerror ctx name action Hn).
    cbn [filter fst snd] in *.
    destruct (resolve name =? NR_SCMP_ERROR) eqn:Hres; cbn [negb andb] in *.
    + destruct (IH ctx Hrest Hdist) as (Hlen & Hdef & Hrules).
      destruct (filter_rules resolve libseccomp_rule_add strerror ctx rest) as [rs ctx''].
      cbn [fst snd length] in *. repeat split; congruence.
    + destruct (to_seccomp_param action =? ctx_default ctx) eqn:Hdef0; cbn [negb andb] in *.
      * destruct (IH ctx Hrest Hdist) as (Hlen & Hdef & Hrules).
        destruct (filter_rules resolve libseccomp_rule_add strerror ctx rest) as [rs ctx''].
        cbn [fst snd length] in *. repeat split; congruence.
      * cbn [map fst snd] in Hdist.
        rewrite (distinct_app_cons _ _ _ Hdist).
        set (ctx1 := {| ctx_default := ctx_default ctx;
                        ctx_rules := (ctx_rules ctx ++ [(to_seccomp_param action, resolve name)])%list |}).
        assert (Hdist1 : distinct (map snd (ctx_rules ctx1) ++
                           map (fun r => resolve (fst r))
                             (filter (fun r => negb (resolve (fst r) =? NR_SCMP_ERROR) &&
                                       negb (to_seccomp_param (snd r) =? ctx_default ctx1)) rest))
                         = true).
        { subst ctx1. cbn [ctx_rules ctx_default]. rewrite map_app, <- app_assoc. exact Hdist. }
        destruct (IH ctx1 Hrest Hdist1) as (Hlen & Hdef & Hrules).
        destruct (filter_rules resolve libseccomp_rule_add strerror ctx1 rest) as [rs ctx''].
        cbn [fst snd length map] in *. subst ctx1. cbn [ctx_default ctx_rules] in *.
        repeat split; try congruence.
        rewrite Hrules, <- app_assoc. reflexivity.
Qed.

(** A filter with default Allow: a rule with the default action and an
    unknown name are skipped, the Kill rule for fork is installed. *)
Lemma filter_rules_skips_failures_witness :
  let rules := [("read", Allow); ("fork", Kill); ("nosuch", Kill)] in
  forallb (fun r => negb (has_nul (fst r))) rules = true /\
  ctx_rules (snd (filter_rules x86_64_resolve_name libseccomp_rule_add "Permission denied"
                    (libseccomp_init SCMP_ACT_ALLOW) rules)) = [(SCMP_ACT_KILL, 57)].
Proof.
  intros rules. split; [reflexivity|].
  destruct (filter_rules_skips_failures x86_64_resolve_name "Permission denied"
              (libseccomp_init SCMP_ACT_ALLOW) rules eq_refl eq_refl) as (_ & _ & H).
  rewrite H. reflexivity.
Defined.

(** ** The sandbox filesystem *)

Lemma bind_ok : forall A B (m : M A) (k : A -> M B) s a s1,
  m s = (Ok a, s1) -> bind m k s = k a s1.
Proof. intros A B m k s a s1 H. unfold bind. rewrite H. reflexivity. Qed.

Lemma accepts_ltb : forall kernel, accepts_all kernel ->
  forall h e, (kernel h e <? 0) = false.
Proof. intros kernel Hk h e. apply Z.ltb_ge, Hk. Qed.

(** [m] never returns an error: it returns or panics. *)
Definition no_err {A} (m : M A) : Prop := forall s e s', m s <> (Err e, s').

Lemma no_err_ret : forall A (a : A), no_err (ret a).
Proof. intros A a s e s' H. discriminate H. Qed.

Lemma no_err_panic : forall A msg, no_err (@panic A msg).
Proof. intros A msg s e s' H. discriminate H. Qed.

Lemma no_err_sys : forall kernel e, no_err (sys kernel e).
Proof. intros kernel e s e' s' H. discriminate H. Qed.

Lemma no_err_bind : forall A B (m : M A) (k : A -> M B),
  no_err m -> (forall a, no_err (k a)) -> no_err (bind m k).
Proof.
  intros A B m k Hm Hk s e s'' H. unfold bind in H.
  destruct (m s) as [[a|e'|e'] s'] eqn:E.
  - exact (Hk a s' e s'' H).
  - exact (Hm s e' s' E).
  - discriminate H.
Qed.

Lemma no_err_mapM_ : forall A (f : A -> M unit) l,
  (forall x, no_err (f x)) -> no_err (mapM_ f l).
Proof.
  intros A f l Hf. induction l as [|x l IH]; simpl.
  - apply no_err_ret.
  - apply no_err_bind; [apply Hf | intros _; exact IH].
Qed.

Ltac no_err_step :=
  match goal with
  | |- no_err (bind _ _) => apply no_err_bind; [|intros ?]
  | |- no_err (ret _) => apply no_err_ret
  | |- no_err (panic _) => apply no_err_panic
  | |- no_err (sys _ _) => apply no_err_sys
  | |- no_err (mapM_ _ _) => apply no_err_mapM_; intros ?
  | |- no_err (check_syscall _ _) => unfold check_syscall
  | |- no_err (unwrap_io _) => unfold unwrap_io
  | |- no_err (mount _ _ _ _ _ _) => unfold mount
  | |- no_err (make_dev _ _ _ _) => unfold make_dev
  | |- no_err (mount_dir _ _ _) => unfold mount_dir
  | |- no_err (match ?x with _ => _ end) => destruct x
  | |- no_err (if ?b then _ else _) => destruct b
  end.


Lemma mount_dir_no_err : forall kernel dir sb, no_err (mount_dir kernel dir sb).
Proof. intros. repeat no_err_step. Qed.

(** Unfold a run of the monad and split on the kernel's answers in [H]. *)
Ltac kernel_cases H :=
  unfold mount, make_dev, unwrap_io, check_syscall, sys, bind, ret, panic in H;
  cbn -[Z.ltb path_join] in H;
  repeat (match type of H with
          | context [?x <? 0] => destruct (x <? 0)
          end; cbn -[Z.ltb path_join] in H; try discriminate H).

Lemma mount_ok : forall kernel src t fs o d s s',
  mount kernel src t fs o d s = (Ok tt, s') ->
  s' = {| rlimits := rlimits s; trace := (trace s ++ [CreateDirAll t; Mount src t fs o d])%list |}.
Proof.
  intros kernel src t fs o d s s' H. kernel_cases H.
  injection H as <-. rewrite <- app_assoc. reflexivity.
Qed.

Lemma mount_accept : forall kernel src t fs o d s, accepts_all kernel ->
  mount kernel src t fs o d s =
    (Ok tt, {| rlimits := rlimits s; trace := (trace s ++ [CreateDirAll t; Mount src t fs o d])%list |}).
Proof.
  intros kernel src t fs o d s Hk.
  unfold mount, unwrap_io, check_syscall, sys, bind, ret, panic; cbn -[Z.ltb path_join].
  rewrite !(accepts_ltb kernel Hk). cbn -[path_join]. rewrite <- app_assoc. reflexivity.
Qed.





Lemma mount_dir_unfold : forall kernel src w c r sb,
  mount_dir kernel {| target := String "/"%char (String c r); source := src; writable := w |} sb =
  (mount kernel src (path_join sb (String c r)) "" (Z.lor MS_BIND MS_REC) "" ;;
   if negb w
   then mount kernel "" (path_join sb (String c r)) "" (Z.lor (Z.lor MS_REMOUNT MS_RDONLY) MS_BIND) ""
   else ret tt).
Proof. reflexivity. Qed.

Lemma mount_dir_spec : forall kernel dir sb s,
  (valid_mount_target dir.(target) = false ->
     exists msg, mount_dir kernel dir sb s = (Panic msg, s)) /\
  (valid_mount_target dir.(target) = true ->
     exists t,
       (forall s', mount_dir kernel dir sb s = (Ok tt, s') ->
          s' = {| rlimits := rlimits s; trace := (trace s ++ mount_dir_effects dir t)%list |}) /\
       (accepts_all kernel ->
          mount_dir kernel dir sb s =
            (Ok tt, {| rlimits := rlimits s; trace := (trace s ++ mount_dir_effects dir t)%list |}))).
Proof.
  intros kernel [tgt src w] sb s. unfold valid_mount_target, starts_with_slash.
  cbn [target source writable].
  destruct (String.eqb tgt "/") eqn:Hroot; cbn [negb andb].
  - split; [intros _; eexists; unfold mount_dir; cbn [target]; rewrite Hroot; reflexivity
           | discriminate].
  - destruct tgt as [|c rest]; [split; [intros _; eexists; reflexivity | discriminate]|].
    destruct (Ascii.eqb c "/"%char) eqn:Hc.
    + apply Ascii.eqb_eq in Hc. subst c.
      split; [discriminate|intros _].
      destruct rest as [|c r]; [discriminate Hroot|].
      exists (path_join sb (String c r)). rewrite mount_dir_unfold. split.
      * intros s' H. apply bind_ok_inv in H as ([] & s1 & H1 & H2).
        apply mount_ok in H1. subst s1. unfold mount_dir_effects. cbn [writable source].
        destruct w; cbn [negb] in H2.
        -- injection H2 as <-. cbn. rewrite ?app_nil_r. reflexivity.
        -- apply mount_ok in H2. subst s'. cbn. rewrite <- app_assoc. reflexivity.
      * intros Hk. rewrite (bind_ok _ _ _ _ _ _ _ (mount_accept _ _ _ _ _ _ s Hk)).
        unfold mount_dir_effects. cbn [writable source].
        destruct w; cbn [negb].
        -- cbn. rewrite ?app_nil_r. reflexivity.
        -- rewrite mount_accept by exact Hk. cbn. rewrite <- app_assoc. reflexivity.
    + assert (Hnot : match c with "/"%char => true | _ => false end = false).
      { destruct c as [[] [] [] [] [] [] [] []]; try reflexivity; discriminate. }
      assert (Hnot' : (match String c rest with String "/"%char rest0 => Some rest0 | _ => None end) = None).
      { destruct c as [[] [] [] [] [] [] [] []]; try reflexivity; discriminate. }
      rewrite Hnot. split; [intros _; eexists | discriminate].
      unfold mount_dir. cbn [target]. rewrite Hroot. cbn [negb].
      unfold strip_root. rewrite Hnot'. reflexivity.
Qed.


(** [mount_dir] panics, before any effect, on the target [/] and on a
    relative target, and it never returns an error. For an absolute
    target [/REL] whose components are normal, with no NUL byte in the
    paths: when it returns, it has created and recursively bind-mounted
    the source at [REL] under the sandbox root, then, exactly when the
    directory is not writable, created that path again and remounted it
    read-only; it does return when the kernel accepts every call; and
    when the kernel refuses the bind mount, it panics right after it,
    without the remount. *)
Theorem mount_dir_read_only_remount : forall kernel dir sb s,
  (valid_mount_target dir.(target) = false ->
     exists msg, mount_dir kernel dir sb s = (Panic msg, s)) /\
  (forall e s', mount_dir kernel dir sb s <> (Err e, s')) /\
  (forall rel, dir.(target) = String "/"%char rel ->
     forallb plain_component (split_all "/"%char rel) = true ->
     has_nul dir.(source) = false -> has_nul dir.(target) = false -> has_nul sb = false ->
     let t := path_join sb rel in
     let s1 := {| rlimits := rlimits s;
                  trace := (trace s ++
                            [CreateDirAll t; Mount dir.(source) t "" (Z.lor MS_BIND MS_REC) ""] ++
                            (if dir.(writable) then []
                             else [CreateDirAll t;
                                   Mount "" t "" (Z.lor (Z.lor MS_REMOUNT MS_RDONLY) MS_BIND) ""]))%list |} in
     (forall s', mount_dir kernel dir sb s = (Ok tt, s') -> s' = s1) /\
     (accepts_all kernel -> mount_dir kernel dir sb s = (Ok tt, s1)) /\
     (0 <= kernel (trace s) (CreateDirAll t) ->
      kernel (trace s ++ [CreateDirAll t])%list (Mount dir.(source) t "" (Z.lor MS_BIND MS_REC) "") < 0 ->
      mount_dir kernel dir sb s =
        (Panic "libc::mount failed",
         {| rlimits := rlimits s;
            trace := (trace s ++ [CreateDirAll t; Mount dir.(source) t "" (Z.lor MS_BIND MS_REC) ""])%list |}))).
Proof.
  intros kernel dir sb s.
  split; [apply (mount_dir_spec kernel dir sb s)|].
  split; [intros e s'; apply mount_dir_no_err|].
  intros rel Ht Hplain _ _ _. cbv zeta.
  destruct rel as [|c r]; [discriminate|].
  destruct dir as [tgt src w]; cbn [target source writable] in *. subst tgt.
  rewrite mount_dir_unfold.
  split; [|split].
  - intros s' H. apply bind_ok_inv in H as ([] & s2 & H1 & H2). apply mount_ok in H1. subst s2.
    destruct w; cbn [negb] in H2.
    + injection H2 as <-. cbn [rlimits trace]. rewrite ?app_nil_r. reflexivity.
    + apply mount_ok in H2. subst s'. cbn [rlimits trace]. rewrite <- !app_assoc. reflexivity.
  - intros Hk. rewrite (bind_ok _ _ _ _ _ _ _ (mount_accept _ _ _ _ _ _ s Hk)).
    destruct w; cbn [negb].
    + cbn [ret rlimits trace]. rewrite ?app_nil_r. reflexivity.
    + rewrite mount_accept by exact Hk. cbn [rlimits trace]. rewrite <- !app_assoc. reflexivity.
  - intros Hdir Hmnt.
    unfold mount at 1, unwrap_io, check_syscall, sys, bind, ret, panic; cbn -[Z.ltb path_join].
    rewrite (proj2 (Z.ltb_ge _ _) Hdir). cbn -[Z.ltb path_join].
    replace (Z.lor MS_BIND MS_REC) with 20480 in Hmnt by reflexivity.
    rewrite (proj2 (Z.ltb_lt _ _) Hmnt). cbn -[path_join].
    rewrite <- app_assoc. reflexivity.
Qed.

(** A kernel that refuses every [mount] ([ENOENT]). *)
Definition kernel_no_mount : kernel_answers :=
  fun _ e => match e with Mount _ _ _ _ _ => -2 | _ => 0 end.

Lemma mount_dir_read_only_remount_witness :
  mount_dir kernel_accepts {| target := "/data"; source := "/srv/data"; writable := false |}
    "/tmp/box" kstate0 =
  (Ok tt, {| rlimits := rlimits kstate0;
             trace := [CreateDirAll "/tmp/box/data"; Mount "/srv/data" "/tmp/box/data" "" 20480 "";
                       CreateDirAll "/tmp/box/data"; Mount "" "/tmp/box/data" "" 4129 ""] |}) /\
  mount_dir kernel_no_mount {| target := "/data"; source := "/srv/data"; writable := false |}
    "/tmp/box" kstate0 =
  (Panic "libc::mount failed",
   {| rlimits := rlimits kstate0;
      trace := [CreateDirAll "/tmp/box/data"; Mount "/srv/data" "/tmp/box/data" "" 20480 ""] |}).
Proof.
  split.
  - destruct (proj2 (proj2 (mount_dir_read_only_remount kernel_accepts
                      {| target := "/data"; source := "/srv/data"; writable := false |}
                      "/tmp/box" kstate0)) "data" eq_refl eq_refl eq_refl eq_refl eq_refl)
      as (_ & Hacc & _).
    rewrite (Hacc (fun _ _ => Z.le_refl 0)). reflexivity.
  - destruct (proj2 (proj2 (mount_dir_read_only_remount kernel_no_mount
                      {| target := "/data"; source := "/srv/data"; writable := false |}
                      "/tmp/box" kstate0)) "data" eq_refl eq_refl eq_refl eq_refl eq_refl)
      as (_ & _ & Hfail).
    rewrite Hfail; [reflexivity | vm_compute; discriminate | vm_compute; reflexivity].
Defined.






(** ** Resource limits *)

(** [setup_resource_limits] of [src/linux/mod.rs], when the inherited hard
    limit on core files is not negative: it succeeds exactly when the
    memory limit is at most the inherited [RLIMIT_AS] hard limit and the
    time limit at most the [RLIMIT_CPU] hard limit; otherwise it panics
    (it never returns an error). On success soft and hard limit both equal
    the configured value for [RLIMIT_AS] and [RLIMIT_CPU] (unchanged when
    not configured), and [RLIMIT_CORE] is 0. *)
Theorem linux_setup_resource_limits_exact : forall config s,
  0 <= snd (rlimits s RLIMIT_CORE) ->
  let r := linux_setup_resource_limits config s in
  (fst r = Ok tt <->
     (forall m, config.(memory_limit) = Some m -> m <= snd (rlimits s RLIMIT_AS)) /\
     (forall t, config.(time_limit) = Some t -> t <= snd (rlimits s RLIMIT_CPU))) /\
  (forall e, fst r <> Err e) /\
  (fst r = Ok tt ->
     rlimits (snd r) RLIMIT_AS =
       match config.(memory_limit) with Some m => (m, m) | None => rlimits s RLIMIT_AS end /\
     rlimits (snd r) RLIMIT_CPU =
       match config.(time_limit) with Some t => (t, t) | None => rlimits s RLIMIT_CPU end /\
     rlimits (snd r) RLIMIT_CORE = (0, 0)).
Proof.
  intros config s Hcore r. subst r.
  unfold linux_setup_resource_limits, linux_set_resource_limit, check_syscall,
    sys_setrlimit, bind, ret, panic.
  unfold RLIMIT_AS, RLIMIT_CPU, RLIMIT_CORE in *.
  destruct (memory_limit config) as [m|]; destruct (time_limit config) as [t|]; cbn -[Z.leb];
  repeat rewrite Z.leb_refl; cbn [andb];
  repeat (match goal with
  | |- context [if ?a <=? ?b then _ else _] => destruct (Z.leb_spec a b)
  end; cbn -[Z.leb]);
  repeat split; intros; try discriminate; try congruence; try lia;
  repeat match goal with
  | H : _ /\ _ |- _ => destruct H
  | H : forall x, Some ?v = Some x -> _ |- _ => specialize (H v eq_refl)
  end; try lia; try congruence.
Qed.

Definition config_mem_1g : SandboxConfiguration :=
  set_memory_limit 1000000000 SandboxConfiguration_default.

Lemma linux_setup_resource_limits_exact_witness :
  fst (linux_setup_resource_limits config_mem_1g kstate_as_4g) = Ok tt /\
  rlimits (snd (linux_setup_resource_limits config_mem_1g kstate_as_4g)) RLIMIT_AS =
    (1000000000, 1000000000).
Proof.
  destruct (linux_setup_resource_limits_exact config_mem_1g kstate_as_4g
              (proj1 (Z.leb_le 0 (snd (rlimits kstate_as_4g RLIMIT_CORE))) eq_refl))
    as (Hiff & _ & Hres).
  assert (Hok : fst (linux_setup_resource_limits config_mem_1g kstate_as_4g) = Ok tt).
  { apply Hiff. split.
    - intros m Hm. injection Hm as <-. apply Z.leb_le. reflexivity.
    - intros t Ht. discriminate. }
  split; [exact Hok | exact (proj1 (Hres Hok))].
Defined.

Lemma util_set_resource_limit_eq : forall resource limit s,
  let v := Z.min limit (snd (rlimits s resource)) in
  util_set_resource_limit resource limit s =
  (Ok tt, {| rlimits := fun r => if r =? resource then (v, v) else rlimits s r;
             trace := (trace s ++ [Getrlimit resource; Setrlimit resource v v])%list |}).
Proof.
  intros resource limit s v.
  unfold util_set_resource_limit, sys_getrlimit, sys_setrlimit, bind, ret, fail; cbn -[Z.min].
  assert (Hmin : (if limit <? snd (rlimits s resource) then limit else snd (rlimits s resource)) = v).
  { unfold v. destruct (Z.ltb_spec limit (snd (rlimits s resource))); lia. }
  rewrite Hmin, Z.leb_refl, (proj2 (Z.leb_le v _) (Z.le_min_r _ _)).
  cbn -[Z.min]. rewrite <- app_assoc. reflexivity.
Qed.

(** [util::setup_resource_limits] always succeeds: each limit it sets is
    the request capped at the inherited hard limit, soft and hard alike.
    It sets [RLIMIT_AS] and [RLIMIT_CPU] only when configured, always sets
    [RLIMIT_STACK] (to infinity when no stack limit is configured) and
    [RLIMIT_CORE] (to 0), and leaves every other resource untouched. *)
Theorem util_setup_resource_limits_clamped : forall config s,
  let r := util_setup_resource_limits config s in
  let hard res := snd (rlimits s res) in
  fst r = Ok tt /\
  rlimits (snd r) RLIMIT_AS =
    (match config.(memory_limit) with
     | Some m => (Z.min m (hard RLIMIT_AS), Z.min m (hard RLIMIT_AS))
     | None => rlimits s RLIMIT_AS
     end) /\
  rlimits (snd r) RLIMIT_STACK =
    (let v := match config.(stack_limit) with Some l => l | None => RLIM_INFINITY end in
     (Z.min v (hard RLIMIT_STACK), Z.min v (hard RLIMIT_STACK))) /\
  rlimits (snd r) RLIMIT_CPU =
    (match config.(time_limit) with
     | Some t => (Z.min t (hard RLIMIT_CPU), Z.min t (hard RLIMIT_CPU))
     | None => rlimits s RLIMIT_CPU
     end) /\
  rlimits (snd r) RLIMIT_CORE = (Z.min 0 (hard RLIMIT_CORE), Z.min 0 (hard RLIMIT_CORE)) /\
  (forall res, res <> RLIMIT_AS -> res <> RLIMIT_STACK -> res <> RLIMIT_CPU ->
     res <> RLIMIT_CORE -> rlimits (snd r) res = rlimits s res).
Proof.
  intros config s r hard. subst r hard.
  unfold util_setup_resource_limits, bind, context, ret.
  unfold RLIMIT_AS, RLIMIT_CPU, RLIMIT_CORE, RLIMIT_STACK.
  destruct (memory_limit config) as [m|]; destruct (stack_limit config) as [l|];
  destruct (time_limit config) as [t|];
  cbn -[Z.min util_set_resource_limit];
  repeat (rewrite util_set_resource_limit_eq; cbn -[Z.min util_set_resource_limit]);
  (split; [reflexivity|]);
  (split; [reflexivity|]); (split; [reflexivity|]); (split; [reflexivity|]);
  (split; [reflexivity|]);
  intros res H1 H2 H3 H4;
  repeat match goal with |- context [res =? ?k] =>
    destruct (Z.eqb_spec res k); [lia|] end; reflexivity.
Qed.

Lemma util_setup_resource_limits_clamped_witness :
  rlimits (snd (util_setup_resource_limits config_mem_8g kstate_as_4g)) RLIMIT_AS =
    (4294967296, 4294967296) /\
  rlimits (snd (util_setup_resource_limits config_mem_8g kstate_as_4g)) 7 = rlimits kstate_as_4g 7.
Proof.
  destruct (util_setup_resource_limits_clamped config_mem_8g kstate_as_4g)
    as (_ & Has & _ & _ & _ & Hother).
  split; [exact Has|].
  apply Hother; discriminate.
Defined.

(** ** The command line front-end *)

Lemma split_all_no_sep : forall c x, has_char c x = false -> split_all c x = [x].
Proof.
  intros c x. induction x as [|a x IH]; intros H; [reflexivity|].
  cbn [has_char] in H. apply orb_false_elim in H as [Ha Hx].
  cbn [split_all]. rewrite Ha, (IH Hx). reflexivity.
Qed.

Lemma split_all_app_sep : forall c x y,
  has_char c x = false -> split_all c (x ++ String c y) = x :: split_all c y.
Proof.
  intros c x y. induction x as [|a x IH]; intros H.
  - cbn. rewrite Ascii.eqb_refl. reflexivity.
  - cbn [has_char] in H. apply orb_false_elim in H as [Ha Hx].
    cbn [split_all append]. rewrite Ha, (IH Hx). reflexivity.
Qed.

Lemma split_all_not_nil : forall c s, split_all c s <> [].
Proof.
  intros c s. destruct s as [|a s]; cbn; [discriminate|].
  destruct (Ascii.eqb a c); [discriminate|]. destruct (split_all c s); discriminate.
Qed.

(** Case analysis on the strings, characters and bits a string-pattern
    [match] is stuck on, one at a time. *)
Ltac lazy_cases :=
  repeat (cbn; match goal with
  | |- context [match ?x with EmptyString => _ | String _ _ => _ end] => is_var x; destruct x
  | |- context [match ?c with Ascii _ _ _ _ _ _ _ _ => _ end] => is_var c; destruct c
  | |- context [match ?b with true => _ | false => _ end] => is_var b; destruct b
  end); try reflexivity.

Lemma parse_mount_one : forall path l,
  split_all ","%char path = [l] -> parse_mount path = Some (l, l, false).
Proof. intros path l H. unfold parse_mount. rewrite H. reflexivity. Qed.

Lemma parse_mount_two : forall path l x,
  split_all ","%char path = [l; x] ->
  parse_mount path = if String.eqb x "rw" then Some (l, l, true) else Some (l, x, false).
Proof. intros path l x H. unfold parse_mount. rewrite H. clear H. lazy_cases. Qed.

Lemma parse_mount_three : forall path l x y,
  split_all ","%char path = [l; x; y] ->
  parse_mount path = if String.eqb y "rw" then Some (l, x, true)
                     else if String.eqb y "ro" then Some (l, x, false) else None.
Proof. intros path l x y H. unfold parse_mount. rewrite H. clear H. lazy_cases. Qed.

Lemma parse_mount_more : forall path l x y z zs,
  split_all ","%char path = l :: x :: y :: z :: zs -> parse_mount path = None.
Proof. intros path l x y z zs H. unfold parse_mount. rewrite H. clear H. lazy_cases. Qed.

(** The [--mount] argument forms: [LOCAL], [LOCAL,rw], [LOCAL,SANDBOX],
    [LOCAL,SANDBOX,rw] and [LOCAL,SANDBOX,ro], where the parts hold no
    comma. In the two-part form any second part other than [rw] is the
    sandbox path, so [LOCAL,ro] mounts [LOCAL] read-only at the relative
    path [ro]; a third part other than [rw] or [ro], or a fourth part,
    makes the argument invalid. *)
Theorem parse_mount_forms : forall l x y z,
  has_char ","%char l = false -> has_char ","%char x = false -> has_char ","%char y = false ->
  parse_mount l = Some (l, l, false) /\
  parse_mount (l ++ "," ++ x) =
    (if String.eqb x "rw" then Some (l, l, true) else Some (l, x, false)) /\
  parse_mount (l ++ "," ++ x ++ "," ++ y) =
    (if String.eqb y "rw" then Some (l, x, true)
     else if String.eqb y "ro" then Some (l, x, false) else None) /\
  parse_mount (l ++ "," ++ x ++ "," ++ y ++ "," ++ z) = None.
Proof.
  intros l x y z Hl Hx Hy. cbn [append].
  split; [apply parse_mount_one, split_all_no_sep, Hl|].
  split; [apply parse_mount_two; rewrite split_all_app_sep, split_all_no_sep by assumption;
          reflexivity|].
  split; [apply parse_mount_three;
          rewrite !split_all_app_sep, split_all_no_sep by assumption; reflexivity|].
  destruct (split_all ","%char z) as [|p ps] eqn:Hz; [exfalso; exact (split_all_not_nil _ _ Hz)|].
  apply (parse_mount_more _ l x y p ps).
  rewrite !split_all_app_sep, Hz by assumption. reflexivity.
Qed.

Lemma parse_mount_forms_witness :
  parse_mount "/data,ro" = Some ("/data", "ro", false) /\
  parse_mount "/data,/srv,ro" = Some ("/data", "/srv", false).
Proof.
  destruct (parse_mount_forms "/data" "/srv" "ro" "" eq_refl eq_refl eq_refl) as (_ & _ & H3 & _).
  destruct (parse_mount_forms "/data" "ro" "" "" eq_refl eq_refl eq_refl) as (_ & H2 & _).
  split; [exact H2 | exact H3].
Defined.

Lemma split_first_app_sep : forall c x y,
  has_char c x = false -> split_first c (x ++ String c y) = Some (x, y).
Proof.
  intros c x y. induction x as [|a x IH]; intros H.
  - cbn. rewrite Ascii.eqb_refl. reflexivity.
  - cbn [has_char] in H. apply orb_false_elim in H as [Ha Hx].
    cbn [split_first append]. rewrite Ha, (IH Hx). reflexivity.
Qed.

Lemma split_first_no_sep : forall c x, has_char c x = false -> split_first c x = None.
Proof.
  intros c x. induction x as [|a x IH]; intros H; [reflexivity|].
  cbn [has_char] in H. apply orb_false_elim in H as [Ha Hx].
  cbn [split_first]. rewrite Ha, (IH Hx). reflexivity.
Qed.

Lemma add_env_ok : forall getenv l config config',
  add_env getenv config l = Ok config' ->
  config_scalars config' = config_scalars config /\ args config' = args config /\
  mount_paths config' = mount_paths config /\
  exists es, env config' = (env config ++ es)%list /\ Forall2 (env_entry getenv) l es.
Proof.
  intros getenv l. induction l as [|el l IH]; intros config config' H; cbn in H.
  - injection H as <-. repeat split; try reflexivity. exists []. rewrite app_nil_r. auto.
  - destruct (split_first "="%char el) as [[name value]|] eqn:Hs.
    + destruct (IH _ _ H) as (Hc & Ha & Hm & es & He & Hf).
      repeat split; try assumption.
      exists ((name, value) :: es). cbn in He. rewrite He, <- app_assoc.
      split; [reflexivity|]. constructor; [left; exact Hs | exact Hf].
    + destruct (getenv el) as [value|] eqn:Hg; [|discriminate].
      destruct (IH _ _ H) as (Hc & Ha & Hm & es & He & Hf).
      repeat split; try assumption.
      exists ((el, value) :: es). cbn in He. rewrite He, <- app_assoc.
      split; [reflexivity|]. constructor; [right; auto | exact Hf].
Qed.

Lemma add_mounts_ok : forall l config config',
  add_mounts config l = Ok config' ->
  config_scalars config' = config_scalars config /\ args config' = args config /\
  env config' = env config /\
  exists ms, mount_paths config' = (mount_paths config ++ ms)%list /\ Forall2 mount_entry l ms.
Proof.
  intros l. induction l as [|p l IH]; intros config config' H; cbn in H.
  - injection H as <-. repeat split; try reflexivity. exists []. rewrite app_nil_r. auto.
  - destruct (parse_mount p) as [[[local sb] w]|] eqn:Hp; [|discriminate].
    destruct (IH _ _ H) as (Hc & Ha & He & ms & Hm & Hf).
    repeat split; try assumption.
    exists ({| source := local; target := sb; writable := w |} :: ms).
    cbn in Hm. rewrite Hm, <- app_assoc. split; [reflexivity|].
    constructor; [exact Hp | exact Hf].
Qed.

Lemma add_env_outcome : forall getenv l config,
  (forall e, add_env getenv config l <> Panic e) /\
  (forall e, add_env getenv config l = Err e ->
     exists el, In el l /\ has_char "="%char el = false /\ getenv el = None /\
                e = "Variable " ++ el ++ " not present in the environment").
Proof.
  intros getenv l. induction l as [|el l IH]; intros config; cbn.
  - split; intros e H; discriminate.
  - destruct (split_first "="%char el) as [[name value]|] eqn:Hs.
    + destruct (IH (push_env name value config)) as [Hp He].
      split; [exact Hp|]. intros e H. destruct (He e H) as (el' & Hin & Hrest).
      exists el'. split; [right; exact Hin | exact Hrest].
    + destruct (getenv el) as [value|] eqn:Hg.
      * destruct (IH (push_env el value config)) as [Hp He].
        split; [exact Hp|]. intros e H. destruct (He e H) as (el' & Hin & Hrest).
        exists el'. split; [right; exact Hin | exact Hrest].
      * split; [discriminate|]. intros e H. injection H as <-.
        exists el. split; [left; reflexivity|]. split; [|auto].
        clear -Hs. induction el as [|a el IH]; [reflexivity|].
        cbn in Hs |- *. destruct (Ascii.eqb a "="%char); [discriminate|].
        destruct (split_first "="%char el) as [[? ?]|]; [discriminate|]. apply IH; reflexivity.
Qed.

(** The [--env] loop: an argument [NAME=VALUE] is split at its first
    [=], so the value may itself hold [=]; an argument without [=] is
    looked up in the supervisor's environment with [std::env::var]. The
    loop never panics; it fails only on an argument without [=] whose
    variable [std::env::var] cannot read ([getenv] is [None]: the
    variable is unset, or its value is not valid Unicode), with the
    message [Variable NAME not present in the environment] in both
    cases. *)
Theorem add_env_forms : forall getenv config name value el l,
  has_char "="%char name = false -> has_char "="%char el = false ->
  add_env getenv config ((name ++ "=" ++ value) :: l) =
    add_env getenv (push_env name value config) l /\
  add_env getenv config (el :: l) =
    match getenv el with
    | Some v => add_env getenv (push_env el v config) l
    | None => Err ("Variable " ++ el ++ " not present in the environment")
    end /\
  (forall e, add_env getenv config l <> Panic e) /\
  (forall e, add_env getenv config l = Err e ->
     exists el', In el' l /\ has_char "="%char el' = false /\ getenv el' = None /\
                 e = "Variable " ++ el' ++ " not present in the environment").
Proof.
  intros getenv config name value el l Hn He.
  split; [cbn [add_env append]; rewrite split_first_app_sep by exact Hn; reflexivity|].
  split; [cbn [add_env]; rewrite split_first_no_sep by exact He; reflexivity|].
  apply add_env_outcome.
Qed.

Lemma add_env_forms_witness :
  add_env (fun _ => None) SandboxConfiguration_default ["OPTS=a=b"; "HOME"] =
    Err "Variable HOME not present in the environment" /\
  add_env (fun _ => None) SandboxConfiguration_default ["OPTS=a=b"] =
    Ok (push_env "OPTS" "a=b" SandboxConfiguration_default).
Proof.
  destruct (add_env_forms (fun _ => None) SandboxConfiguration_default "OPTS" "a=b" "HOME" ["HOME"]
              eq_refl eq_refl) as (H1 & H2 & _).
  destruct (add_env_forms (fun _ => None) (push_env "OPTS" "a=b" SandboxConfiguration_default)
              "OPTS" "a=b" "HOME" [] eq_refl eq_refl) as (_ & H3 & _).
  split.
  - exact (eq_trans H1 H3).
  - destruct (add_env_forms (fun _ => None) SandboxConfiguration_default "OPTS" "a=b" "HOME" []
                eq_refl eq_refl) as (H4 & _). exact H4.
Defined.

Lemma fold_push_arg : forall l c,
  let c' := fold_left (fun c arg => push_arg arg c) l c in
  config_scalars c' = config_scalars c /\ args c' = (args c ++ l)%list /\
  env c' = env c /\ mount_paths c' = mount_paths c.
Proof.
  intros l. induction l as [|x l IH]; intros c; cbn.
  - rewrite app_nil_r. auto.
  - destruct (IH (push_arg x c)) as (H1 & H2 & H3 & H4). cbn in *.
    rewrite H2, <- app_assoc. auto.
Qed.

(** The fields of the configuration [main] hands to the sandbox. *)
Lemma main_config_facts :
  forall is_secure getenv sandbox json_to_string debug_fmt (a : Args) c,
    ran_with (tabox_main is_secure getenv sandbox json_to_string debug_fmt a) = Some c ->
    executable c = a_executable a /\ args c = a_args a /\
    time_limit c = a_time_limit a /\
    memory_limit c =
      option_map (fun m => (m * 1000000) mod 18446744073709551616) (a_memory_limit a) /\
    stack_limit c = None /\ wall_time_limit c = a_wall_limit a /\
    working_directory c = (match a_working_directory a with Some p => p | None => "/" end) /\
    stdin c = a_stdin a /\ stdout c = a_stdout a /\ stderr c = a_stderr a /\
    cpu_core c = a_cpu_core a /\ uid c = a_uid a /\ gid c = a_gid a /\
    mount_tmpfs c = a_mount_tmpfs a /\ mount_proc c = a_mount_proc a /\
    syscall_filter c = Some (SyscallFilter_build (a_allow_multiprocess a) (a_allow_chmod a)) /\
    Forall2 (env_entry getenv) (a_env a) (env c) /\
    Forall2 mount_entry (a_mount a) (mount_paths c).
Proof.
  intros is_secure getenv sandbox json_to_string debug_fmt a c H.
  unfold tabox_main in H.
  destruct (negb is_secure && negb (a_allow_insecure a)); [discriminate|].
  match goal with
  | H : context [add_env ?g (fold_left ?f ?l ?c0) ?el] |- _ =>
      set (cfg0 := c0) in *;
      destruct (fold_push_arg l cfg0) as (Hs0 & Ha0 & He0 & Hm0);
      destruct (add_env g (fold_left f l cfg0) el) as [c1|e|e] eqn:He; try discriminate;
      destruct (add_env_ok _ _ _ _ He) as (Hs1 & Ha1 & Hm1 & es & Henv & Hfe)
  end.
  destruct (add_mounts c1 (a_mount a)) as [c2|e|e] eqn:Hm; try discriminate.
  destruct (add_mounts_ok _ _ _ Hm) as (Hs2 & Ha2 & He2 & ms & Hmp & Hfm).
  assert (Hc : c = set_syscall_filter
                     (SyscallFilter_build (a_allow_multiprocess a) (a_allow_chmod a)) c2)
    by (destruct (sandbox _); cbn in H; congruence).
  clear H. subst c.
  rewrite Hs1, Hs0 in Hs2. rewrite Ha1, Ha0 in Ha2. rewrite He0 in Henv.
  rewrite Henv in He2. rewrite Hm1, Hm0 in Hmp.
  clear He Hm Hs1 Hs0 Ha1 Ha0 He0 Henv Hm1 Hm0.
  destruct c2; cbn [config_scalars] in Hs2; injection Hs2 as; subst.
  cbn [set_syscall_filter executable args time_limit memory_limit stack_limit wall_time_limit
       working_directory stdin stdout stderr cpu_core uid gid mount_tmpfs mount_proc
       syscall_filter env mount_paths] in *.
  subst cfg0. rewrite Ha2, He2, Hmp.
  destruct (a_time_limit a), (a_memory_limit a), (a_wall_limit a), (a_stdin a), (a_stdout a),
    (a_stderr a), (a_working_directory a), (a_cpu_core a);
  repeat split; assumption.
Qed.

(** The configuration [main] hands to the sandbox: every scalar option
    copied from the command line, the memory limit converted from
    megabytes to bytes ([u64] multiplication by 10^6), the working
    directory [/] by default, no stack limit, the preset syscall filter,
    the positional arguments in order, and one environment entry and one
    mount per [--env] and [--mount] argument, in order. *)
Theorem main_config_from_args :
  forall is_secure getenv sandbox json_to_string debug_fmt (a : Args) c,
    ran_with (tabox_main is_secure getenv sandbox json_to_string debug_fmt a) = Some c ->
    executable c = a_executable a /\ args c = a_args a /\
    time_limit c = a_time_limit a /\
    memory_limit c =
      option_map (fun m => (m * 1000000) mod 18446744073709551616) (a_memory_limit a) /\
    stack_limit c = None /\ wall_time_limit c = a_wall_limit a /\
    working_directory c = (match a_working_directory a with Some p => p | None => "/" end) /\
    stdin c = a_stdin a /\ stdout c = a_stdout a /\ stderr c = a_stderr a /\
    cpu_core c = a_cpu_core a /\ uid c = a_uid a /\ gid c = a_gid a /\
    mount_tmpfs c = a_mount_tmpfs a /\ mount_proc c = a_mount_proc a /\
    syscall_filter c = Some (SyscallFilter_build (a_allow_multiprocess a) (a_allow_chmod a)) /\
    Forall2 (env_entry getenv) (a_env a) (env c) /\
    Forall2 mount_entry (a_mount a) (mount_paths c).
Proof.
  intros is_secure getenv sandbox json_to_string debug_fmt a c H.
  exact (main_config_facts is_secure getenv sandbox json_to_string debug_fmt a c H).
Qed.


Lemma main_config_from_args_witness :
  exists c,
    ran_with (tabox_main true (fun _ => None) finished_ok (fun _ => "{}")
                (fun _ => "result") args_example) = Some c /\
    memory_limit c = Some 256000000 /\ working_directory c = "/" /\ stack_limit c = None.
Proof.
  eexists. split; [reflexivity|].
  destruct (main_config_from_args true (fun _ => None) finished_ok (fun _ => "{}")
              (fun _ => "result") args_example _ eq_refl)
    as (_ & _ & _ & Hm & Hs & _ & Hw & _).
  split; [exact Hm|]. split; [exact Hw | exact Hs].
Defined.











